(** * PricePoint Intel front-end components: a shallow embedding

    The four React components of the repository (PricingHeatmap,
    VendorMatrix, PromoCalibrationSlider and SKUSearch) are embedded as
    Rocq functions over the values their handlers and memoised
    derivations compute.

    Conventions.
    - A JavaScript [number] is an exact rational ([Q]) in the models of
      the components: their results are about finite numbers in exact
      arithmetic.  Where rounding, overflow or NaN decide the matter,
      [getColorFromScale] is embedded a second time over IEEE 754
      binary64 (module [PricingHeatmapDouble]).
    - [undefined] is [None] wherever an array read or an optional field
      can produce it.
    - React state is an explicit record; a handler is a function from
      state to state, and calls of external callbacks are recorded in
      lists carried by the state. *)

From Stdlib Require Import QArith Qround Qminmax Lqa.
From Stdlib Require Floats.PrimFloat Floats.SpecFloat Floats.FloatOps.
From Stdlib Require Uint63.
From stdpp Require Import gmap strings list fin_maps sorting.

Open Scope Z_scope.

(** * Part I: the embedding *)

(** ** JavaScript built-ins used by the components *)
Module JS.

(** [a[i]] for an integer-valued index: [undefined] outside
    [0 .. a.length - 1], in particular for every negative index. *)
Definition array_get {A : Type} (a : list A) (i : Z) : option A :=
  if i <? 0 then None else a !! Z.to_nat i.

(** [a.length] as a number. *)
Definition array_length {A : Type} (a : list A) : Z :=
  Z.of_nat (length a).

(** [Math.min(v, ...vs)] and [Math.max(v, ...vs)] on a non-empty
    argument list. *)
Definition Math_min (v : Q) (vs : list Q) : Q := foldl Qmin v vs.
Definition Math_max (v : Q) (vs : list Q) : Q := foldl Qmax v vs.

(** [o ?? d]. *)
Definition nullish {A : Type} (o : option A) (d : A) : A :=
  match o with Some x => x | None => d end.

(** [Array.prototype.sort(compare)].  ECMAScript requires the sort to be
    stable, and for a consistent comparator this fixes the result, so any
    stable sort is a model of it; insertion sort is used here.  [x] is
    placed before the first [y] with [compare x y <= 0]: an element never
    overtakes one that compares equal to it. *)
Fixpoint sort_insert {A : Type} (compare : A -> A -> Z) (x : A)
    (l : list A) : list A :=
  match l with
  | [] => [x]
  | y :: l' =>
      if compare x y <=? 0 then x :: y :: l'
      else y :: sort_insert compare x l'
  end.

Definition Array_sort {A : Type} (compare : A -> A -> Z)
    (l : list A) : list A :=
  foldr (sort_insert compare) [] l.

End JS.

(** ** PricingHeatmap *)
Module PricingHeatmap.
Import JS.

Definition DEFAULT_COLOR_SCALE : list string :=
  [ "#22c55e"; "#84cc16"; "#eab308"; "#f97316"; "#ef4444" ]%string.

(** [RegionPricingData], with the fields the component reads. *)
Record RegionPricingData : Type := {
  region_code : string;
  region : string;
  avg_price : Q;
  min_price : Q;
  max_price : Q;
  vendor_count : Q;
  sku_count : Q;
  price_index : Q
}.

(** [HeatmapConfig['metric']]. *)
Inductive Metric : Type := m_avg_price | m_vendor_count | m_price_index.

(** The two optional bounds of [HeatmapConfig]. *)
Record HeatmapConfig : Type := {
  cfg_minValue : option Q;
  cfg_maxValue : option Q
}.

Record Range : Type := { minValue : Q; maxValue : Q }.

(** The index computed by the non-degenerate branch of
    [getColorFromScale]:
    [Math.min(Math.floor(normalized * colorScale.length),
              colorScale.length - 1)]. *)
Definition scaleIndex (value min max : Q) (len : Z) : Z :=
  let normalized := ((value - min) / (max - min))%Q in
  Z.min (Qfloor (normalized * inject_Z len)) (len - 1).

(** The index of the degenerate branch:
    [Math.floor(colorScale.length / 2)]. *)
Definition middleIndex (len : Z) : Z :=
  Qfloor (inject_Z len / 2).

Definition getColorFromScale
    (value min max : Q) (colorScale : list string) : option string :=
  if Qeq_bool max min
  then array_get colorScale (middleIndex (array_length colorScale))
  else array_get colorScale
         (scaleIndex value min max (array_length colorScale)).

(** The [switch (selectedMetric)] of the range computation. *)
Definition metricValue (selectedMetric : Metric)
    (d : RegionPricingData) : Q :=
  match selectedMetric with
  | m_avg_price => avg_price d
  | m_vendor_count => vendor_count d
  | m_price_index => price_index d
  end.

(** The [useMemo] that yields [{ minValue, maxValue }].  The first branch
    is [data.length === 0]. *)
Definition colorRange (data : list RegionPricingData)
    (selectedMetric : Metric) (config : HeatmapConfig) : Range :=
  match map (metricValue selectedMetric) data with
  | [] => {| minValue := 0; maxValue := 100 |}
  | v :: vs =>
      {| minValue := nullish (cfg_minValue config) (Math_min v vs);
         maxValue := nullish (cfg_maxValue config) (Math_max v vs) |}
  end.

(** The [regionDataMap] memo: later entries of [data] replace earlier ones
    with the same region code. *)
Definition regionDataMap (data : list RegionPricingData)
    : gmap string RegionPricingData :=
  foldl (fun map d => <[ region_code d := d ]> map) ∅ data.

(** [getRegionColor(regionCode)], with [mergedConfig.colorScale] as
    [colorScale]. *)
Definition getRegionColor (data : list RegionPricingData)
    (selectedMetric : Metric) (config : HeatmapConfig)
    (colorScale : list string) (regionCode : string) : option string :=
  match regionDataMap data !! regionCode with
  | None => Some "#e5e7eb"%string
  | Some regionData =>
      let value :=
        match selectedMetric with
        | m_avg_price => avg_price regionData
        | m_vendor_count => vendor_count regionData
        | m_price_index => price_index regionData
        end in
      let r := colorRange data selectedMetric config in
      getColorFromScale value (minValue r) (maxValue r) colorScale
  end.

(** What a summary cell shows: a literal text, or [formatCurrency] of a
    number (the [Intl.NumberFormat] rendering itself is not modelled). *)
Inductive Rendered : Type :=
| Text (s : string)
| Currency (q : Q).

(** [data.reduce((sum, d) => sum + f(d), 0)]. *)
Definition reduce_sum (f : RegionPricingData -> Q)
    (data : list RegionPricingData) : Q :=
  foldl (fun sum d => (sum + f d)%Q) 0%Q data.

Definition totalVendors (data : list RegionPricingData) : Q :=
  reduce_sum vendor_count data.

Definition totalSKUs (data : list RegionPricingData) : Q :=
  reduce_sum sku_count data.

Definition avgPriceAllRegions (data : list RegionPricingData) : Rendered :=
  if 0 <? array_length data
  then Currency (reduce_sum avg_price data / inject_Z (array_length data))
  else Text "$0.00".

(** Reading of "the true min/max over the collection" used to state the
    range property. *)
Definition is_minimum (m : Q) (values : list Q) : Prop :=
  m ∈ values /\ forall v, v ∈ values -> (m <= v)%Q.

Definition is_maximum (m : Q) (values : list Q) : Prop :=
  m ∈ values /\ forall v, v ∈ values -> (v <= m)%Q.

(** Two regions and a configuration used in the examples. *)
Definition CA (avg : Q) : RegionPricingData :=
  {| region_code := "CA"; region := "California"; avg_price := avg;
     min_price := avg; max_price := avg; vendor_count := 4;
     sku_count := 12; price_index := 1 |}.

Definition TX (avg : Q) : RegionPricingData :=
  {| region_code := "TX"; region := "Texas"; avg_price := avg;
     min_price := avg; max_price := avg; vendor_count := 3;
     sku_count := 9; price_index := 1 |}.

Definition no_overrides : HeatmapConfig :=
  {| cfg_minValue := None; cfg_maxValue := None |}.

(** Two regions that differ in each of the three metrics, and in a
    different direction for the vendor count. *)
Definition NY : RegionPricingData :=
  {| region_code := "NY"; region := "New York"; avg_price := 2.5;
     min_price := 2; max_price := 3; vendor_count := 9;
     sku_count := 20; price_index := 0.3 |}.

Definition FL : RegionPricingData :=
  {| region_code := "FL"; region := "Florida"; avg_price := 4;
     min_price := 3; max_price := 5; vendor_count := 6;
     sku_count := 15; price_index := 0.7 |}.

End PricingHeatmap.

(** ** VendorMatrix *)
Module VendorMatrix.
Import JS.

(** [VendorMatrixCell], with the fields the derivations read. *)
Record VendorMatrixCell : Type := {
  vendor_id : string;
  sku_id : string;
  has_pricing : bool;
  price_rank : option Z
}.

Record Vendor : Type := {
  v_vendor_id : string;
  vendor_name : string
}.

Record VendorMatrixData : Type := {
  vendors : list Vendor;
  matrix : list (list VendorMatrixCell)
}.

Inductive SortBy : Type := by_name | by_coverage | by_price.

(** [data.matrix.flat()]. *)
Definition flat (m : list (list VendorMatrixCell)) : list VendorMatrixCell :=
  concat m.

(** [data.matrix.flat().filter((c) => c.vendor_id === v.vendor_id &&
    c.has_pricing).length]. *)
Definition coverageCount (data : VendorMatrixData) (v : Vendor) : Z :=
  array_length
    (filter (fun c => bool_decide (vendor_id c = v_vendor_id v)
                      && has_pricing c = true)
            (flat (matrix data))).

(** [....filter((c) => c.vendor_id === v.vendor_id &&
    c.price_rank === 1).length]. *)
Definition bestPriceCount (data : VendorMatrixData) (v : Vendor) : Z :=
  array_length
    (filter (fun c => bool_decide (vendor_id c = v_vendor_id v)
                      && bool_decide (price_rank c = Some 1) = true)
            (flat (matrix data))).

Definition compareCoverage (data : VendorMatrixData) (a b : Vendor) : Z :=
  coverageCount data b - coverageCount data a.

Definition comparePrice (data : VendorMatrixData) (a b : Vendor) : Z :=
  bestPriceCount data b - bestPriceCount data a.

Section Sorting.
(** [String.prototype.localeCompare] depends on the host locale. *)
Variable localeCompare : string -> string -> Z.

Definition sortedVendors (data : VendorMatrixData) (sortBy : SortBy)
    : list Vendor :=
  match sortBy with
  | by_name =>
      Array_sort
        (fun a b => localeCompare (vendor_name a) (vendor_name b))
        (vendors data)
  | by_coverage => Array_sort (compareCoverage data) (vendors data)
  | by_price => Array_sort (comparePrice data) (vendors data)
  end.
End Sorting.

(** [isSingleSource(skuId)]. *)
Definition pricedFor (skuId : string) (c : VendorMatrixCell) : bool :=
  bool_decide (sku_id c = skuId) && has_pricing c.

Definition isSingleSource (data : VendorMatrixData) (skuId : string)
    : bool :=
  let skuCells :=
    filter (fun c => pricedFor skuId c = true) (flat (matrix data)) in
  bool_decide (array_length skuCells = 1).

(** Reading of "exactly one cell for the SKU has pricing": there is a
    position holding a priced cell of the SKU, and no other position
    does. *)
Definition exactly_one_priced (cells : list VendorMatrixCell)
    (skuId : string) : Prop :=
  exists i c,
    cells !! i = Some c /\ sku_id c = skuId /\ has_pricing c = true /\
    forall j c', cells !! j = Some c' -> sku_id c' = skuId ->
                 has_pricing c' = true -> j = i.

(** [b] stands at an earlier position than [a]. *)
Definition placed_before (b a : Vendor) (l : list Vendor) : Prop :=
  exists i j, (i < j)%nat /\ l !! i = Some b /\ l !! j = Some a.

(** Example data: vendor B prices seven SKUs, vendor A three. *)
Definition cell (v s : string) (priced : bool) : VendorMatrixCell :=
  {| vendor_id := v; sku_id := s; has_pricing := priced;
     price_rank := if priced then Some 1 else None |}.

Definition vendorA : Vendor := {| v_vendor_id := "A"; vendor_name := "Acme" |}.
Definition vendorB : Vendor := {| v_vendor_id := "B"; vendor_name := "Bolt" |}.

Definition sample_matrix : list (list VendorMatrixCell) :=
  [ [ cell "A" "S1" true; cell "A" "S2" true; cell "A" "S3" true;
      cell "A" "S4" false; cell "A" "S5" false ];
    [ cell "B" "S2" true; cell "B" "S3" true; cell "B" "S4" true;
      cell "B" "S5" true; cell "B" "S6" true; cell "B" "S7" true;
      cell "B" "S8" true ] ].

Definition sample_data : VendorMatrixData :=
  {| vendors := [vendorA; vendorB]; matrix := sample_matrix |}.

(** Example data with repeated cells: vendor A has three priced cells that
    are all for SKU S1, vendor B one priced cell for each of S1 and S2. *)
Definition dup_data : VendorMatrixData :=
  {| vendors := [vendorA; vendorB];
     matrix := [ [ cell "A" "S1" true; cell "A" "S1" true;
                   cell "A" "S1" true ];
                 [ cell "B" "S1" true; cell "B" "S2" true ] ] |}.

End VendorMatrix.

(** ** SKUSearch *)
Module SKUSearch.

(** The values that reach [handleFilterChange] through its
    [value: unknown] parameter. *)
Inductive Value : Type :=
| Undefined
| Bool (b : bool)
| Num (q : Q)
| Str (s : string).

(** JavaScript truthiness on those values. *)
Definition truthy (v : Value) : bool :=
  match v with
  | Undefined => false
  | Bool b => b
  | Num q => negb (Qeq_bool q 0)
  | Str s => negb (bool_decide (s = ""%string))
  end.

(** [v || w]. *)
Definition or_else (v w : Value) : Value := if truthy v then v else w.

(** [SKUSearchFilters]: an object with optional properties; reading a
    property that is not there gives [undefined]. *)
Definition get (filters : gmap string Value) (key : string) : Value :=
  match filters !! key with Some v => v | None => Undefined end.

(** Component state: the [filters] state cell and the calls made to the
    [onSearch] prop, oldest first. *)
Record State : Type := {
  filters : gmap string Value;
  searches : list (gmap string Value)
}.

Definition handleFilterChange (key : string) (value : Value)
    (st : State) : State :=
  let newFilters := <[ key := or_else value Undefined ]> (filters st) in
  {| filters := newFilters;
     searches := searches st ++ [newFilters] |}.

Definition handleClearFilters (st : State) : State :=
  {| filters := ∅; searches := searches st ++ [∅] |}.

(** The [onChange] of the "Active SKUs only" checkbox, on
    [e.target.checked]. *)
Definition activeOnlyOnChange (checked : bool) (st : State) : State :=
  handleFilterChange "is_active"
    (if checked then Undefined else Bool false) st.

(** The [onChange] of the two price inputs, on the number parsed from a
    non-empty field ([None] for the empty field). *)
Definition priceOnChange (key : string) (parsed : option Q)
    (st : State) : State :=
  handleFilterChange key
    (match parsed with Some q => Num q | None => Undefined end) st.

End SKUSearch.

(** ** PromoCalibrationSlider

    The component is event driven: its code runs when the slider changes,
    when the debounce timer fires and when a [fetch] settles.  The state
    below holds the React state cells, the [abortControllerRef] ref, the
    pending call of the [lodash.debounce] wrapper, and what the platform
    knows (the clock, the controllers created, the aborted signals, the
    fetches still in flight).  Calls that leave the component ([fetch],
    [onValueChange], [console.error]) are recorded, oldest first.

    Platform behaviour assumed:
    - [debounce(f, 300)] with lodash's default options calls [f] once,
      300ms after the latest call of the wrapper, with that call's
      argument; [cancel()] drops the pending call;
    - a [fetch] given an aborted signal rejects with an error named
      [AbortError], also while the body is being read, and never delivers
      a response after that;
    - timers fire exactly when due.

    The [disabled={loading}] attribute of the input is not part of the
    model: handlers are modelled, whatever dispatches the events. *)
Module PromoCalibrationSlider.

Inductive PromoType : Type := volume | percentage.

Record Props : Type := {
  skuId : string;
  currentPrice : Q;
  initialConfidenceInterval : Q * Q;
  initialAiValue : Q;
  promoType : PromoType
}.

Record PromoSimulationResponse : Type := {
  projected_lift : Q;
  confidence_interval : Q * Q;
  ai_recommended_value : Q;
  calibration_score : Q;
  latency_ms : Q;
  model_version : string
}.

(** One [fetch] call: when it was made, the controller whose signal it
    carries, and the JSON body. *)
Record Request : Type := {
  req_at : nat;
  req_signal : nat;
  req_sku_id : string;
  req_current_price : Q;
  req_promo_type : PromoType;
  req_promo_value : Q;
  req_location_code : string
}.

(** The seven [useState] cells. *)
Record View : Type := {
  sliderValue : Q;
  aiRecommendedValue : Q;
  confidenceInterval : Q * Q;
  projectedLift : Q;
  calibrationScore : Q;
  isLoading : bool;
  latencyMs : Q
}.

Record State : Type := {
  view : View;
  abortControllerRef : option nat;
  pendingCall : option (nat * Q);
  clock : nat;
  controllersMade : nat;
  aborted : gset nat;
  inFlight : gset nat;
  requests : list Request;
  valueChanges : list Q;
  errorsLogged : nat
}.

(** How a [fetch] followed by [response.json()] ends. *)
Inductive Outcome : Type :=
| Success (data : PromoSimulationResponse)
| HttpError
| Rejected (errorName : string).

Inductive Event : Type :=
| SliderChange (newValue : Q)
| FetchSettled (controller : nat) (o : Outcome).

(** *** State cell setters *)

Definition setSliderValue (v : Q) (w : View) : View :=
  {| sliderValue := v;
     aiRecommendedValue := aiRecommendedValue w;
     confidenceInterval := confidenceInterval w;
     projectedLift := projectedLift w;
     calibrationScore := calibrationScore w;
     isLoading := isLoading w;
     latencyMs := latencyMs w |}.

Definition setIsLoading (b : bool) (w : View) : View :=
  {| sliderValue := sliderValue w;
     aiRecommendedValue := aiRecommendedValue w;
     confidenceInterval := confidenceInterval w;
     projectedLift := projectedLift w;
     calibrationScore := calibrationScore w;
     isLoading := b;
     latencyMs := latencyMs w |}.

(** The five setters called after [response.json()]. *)
Definition setFromResponse (data : PromoSimulationResponse) (w : View)
    : View :=
  {| sliderValue := sliderValue w;
     aiRecommendedValue := ai_recommended_value data;
     confidenceInterval := confidence_interval data;
     projectedLift := projected_lift data;
     calibrationScore := calibration_score data;
     isLoading := isLoading w;
     latencyMs := latency_ms data |}.

Definition with_view (f : View -> View) (st : State) : State :=
  {| view := f (view st);
     abortControllerRef := abortControllerRef st;
     pendingCall := pendingCall st;
     clock := clock st;
     controllersMade := controllersMade st;
     aborted := aborted st;
     inFlight := inFlight st;
     requests := requests st;
     valueChanges := valueChanges st;
     errorsLogged := errorsLogged st |}.

Definition with_pendingCall (p : option (nat * Q)) (st : State) : State :=
  {| view := view st;
     abortControllerRef := abortControllerRef st;
     pendingCall := p;
     clock := clock st;
     controllersMade := controllersMade st;
     aborted := aborted st;
     inFlight := inFlight st;
     requests := requests st;
     valueChanges := valueChanges st;
     errorsLogged := errorsLogged st |}.

Definition with_clock (t : nat) (st : State) : State :=
  {| view := view st;
     abortControllerRef := abortControllerRef st;
     pendingCall := pendingCall st;
     clock := t;
     controllersMade := controllersMade st;
     aborted := aborted st;
     inFlight := inFlight st;
     requests := requests st;
     valueChanges := valueChanges st;
     errorsLogged := errorsLogged st |}.

(** [controller.abort()]. *)
Definition abort (c : nat) (st : State) : State :=
  {| view := view st;
     abortControllerRef := abortControllerRef st;
     pendingCall := pendingCall st;
     clock := clock st;
     controllersMade := controllersMade st;
     aborted := {[ c ]} ∪ aborted st;
     inFlight := inFlight st;
     requests := requests st;
     valueChanges := valueChanges st;
     errorsLogged := errorsLogged st |}.

(** [abortControllerRef.current = new AbortController()]. *)
Definition newAbortController (st : State) : State :=
  {| view := view st;
     abortControllerRef := Some (controllersMade st);
     pendingCall := pendingCall st;
     clock := clock st;
     controllersMade := S (controllersMade st);
     aborted := aborted st;
     inFlight := inFlight st;
     requests := requests st;
     valueChanges := valueChanges st;
     errorsLogged := errorsLogged st |}.

(** [fetch(url, { ..., signal })]. *)
Definition fetch (r : Request) (st : State) : State :=
  {| view := view st;
     abortControllerRef := abortControllerRef st;
     pendingCall := pendingCall st;
     clock := clock st;
     controllersMade := controllersMade st;
     aborted := aborted st;
     inFlight := {[ req_signal r ]} ∪ inFlight st;
     requests := requests st ++ [r];
     valueChanges := valueChanges st;
     errorsLogged := errorsLogged st |}.

(** The platform takes a settled fetch out of flight. *)
Definition settled (c : nat) (st : State) : State :=
  {| view := view st;
     abortControllerRef := abortControllerRef st;
     pendingCall := pendingCall st;
     clock := clock st;
     controllersMade := controllersMade st;
     aborted := aborted st;
     inFlight := inFlight st ∖ {[ c ]};
     requests := requests st;
     valueChanges := valueChanges st;
     errorsLogged := errorsLogged st |}.

(** [onValueChange(v)]. *)
Definition onValueChange (v : Q) (st : State) : State :=
  {| view := view st;
     abortControllerRef := abortControllerRef st;
     pendingCall := pendingCall st;
     clock := clock st;
     controllersMade := controllersMade st;
     aborted := aborted st;
     inFlight := inFlight st;
     requests := requests st;
     valueChanges := valueChanges st ++ [v];
     errorsLogged := errorsLogged st |}.

(** [console.error(...)]. *)
Definition console_error (st : State) : State :=
  {| view := view st;
     abortControllerRef := abortControllerRef st;
     pendingCall := pendingCall st;
     clock := clock st;
     controllersMade := controllersMade st;
     aborted := aborted st;
     inFlight := inFlight st;
     requests := requests st;
     valueChanges := valueChanges st;
     errorsLogged := S (errorsLogged st) |}.

(** *** The component's code *)

Section Component.
Variable props : Props.

(** The debounce delay given to [lodash.debounce]. *)
Definition DEBOUNCE_MS : nat := 300.

(** Initial render: the three [useState] cells seeded from props, the
    others from their literals, an empty ref and nothing pending. *)
Definition mount : State :=
  {| view :=
       {| sliderValue := initialAiValue props;
          aiRecommendedValue := initialAiValue props;
          confidenceInterval := initialConfidenceInterval props;
          projectedLift := 0;
          calibrationScore := 0.8;
          isLoading := false;
          latencyMs := 0 |};
     abortControllerRef := None;
     pendingCall := None;
     clock := 0%nat;
     controllersMade := 0%nat;
     aborted := ∅;
     inFlight := ∅;
     requests := [];
     valueChanges := [];
     errorsLogged := 0%nat |}.

(** The [fetch] call of [callInferenceAPI]: POST
    /v1/inference/simulate-promo with this body, at time [t], carrying
    the signal of controller [c]. *)
Definition inferenceRequest (t c : nat) (value : Q) : Request :=
  {| req_at := t;
     req_signal := c;
     req_sku_id := skuId props;
     req_current_price := currentPrice props;
     req_promo_type := promoType props;
     req_promo_value := value;
     req_location_code := "35242" |}.

(** [callInferenceAPI(value)] up to its first [await]: cancel the previous
    request, make a new controller, set the loading flag, issue the
    [fetch] with the new controller's signal. *)
Definition callInferenceAPI (value : Q) (st : State) : State :=
  let st1 :=
    match abortControllerRef st with
    | Some c => abort c st
    | None => st
    end in
  let st2 := newAbortController st1 in
  let st3 := with_view (setIsLoading true) st2 in
  match abortControllerRef st3 with
  | Some c => fetch (inferenceRequest (clock st3) c value) st3
  | None => st3
  end.

(** [callInferenceAPI] after its awaits: the rest of the [try] block, the
    [catch] and the [finally]. *)
Definition callInferenceAPI_resume (o : Outcome) (st : State) : State :=
  let st1 :=
    match o with
    | Success data => with_view (setFromResponse data) st
    | HttpError =>
        (* throw new Error('API request failed'), caught below *)
        console_error st
    | Rejected errorName =>
        if bool_decide (errorName = "AbortError"%string)
        then st
        else console_error st
    end in
  with_view (setIsLoading false) st1.

(** [debouncedInference(value)]: (re)arm the wrapper. *)
Definition debouncedInference (value : Q) (st : State) : State :=
  with_pendingCall (Some ((clock st + DEBOUNCE_MS)%nat, value)) st.

(** [debouncedInference.cancel()]. *)
Definition debouncedInference_cancel (st : State) : State :=
  with_pendingCall None st.

(** [handleSliderChange], on [Number(event.target.value)]. *)
Definition handleSliderChange (newValue : Q) (st : State) : State :=
  let st1 := with_view (setSliderValue newValue) st in
  let st2 := onValueChange newValue st1 in
  debouncedInference newValue st2.

(** The cleanup of the unmount effect. *)
Definition cleanup (st : State) : State :=
  let st1 := debouncedInference_cancel st in
  match abortControllerRef st1 with
  | Some c => abort c st1
  | None => st1
  end.

(** *** The event loop *)

(** Let time pass until [t]: a pending debounced call that is due by then
    runs at its due time. *)
Definition advance (t : nat) (st : State) : State :=
  match pendingCall st with
  | Some (due, value) =>
      if (due <=? t)%nat
      then with_clock t
             (callInferenceAPI value
                (with_pendingCall None (with_clock due st)))
      else with_clock t st
  | None => with_clock t st
  end.

(** Whether the platform can settle the fetch of controller [c] with
    outcome [o]: the fetch is in flight, and once its signal is aborted
    only the [AbortError] rejection remains. *)
Definition canSettle (c : nat) (o : Outcome) (st : State) : bool :=
  bool_decide (c ∈ inFlight st)
  && (if bool_decide (c ∈ aborted st)
      then match o with
           | Rejected errorName => bool_decide (errorName = "AbortError"%string)
           | _ => false
           end
      else true).

(** One event at time [t]; [None] when the platform cannot produce it
    (time running backwards, or a settlement that [canSettle] excludes). *)
Definition step (st : State) (e : nat * Event) : option State :=
  let '(t, ev) := e in
  if (t <? clock st)%nat then None
  else
    let st1 := advance t st in
    match ev with
    | SliderChange newValue => Some (handleSliderChange newValue st1)
    | FetchSettled c o =>
        if canSettle c o st1
        then Some (callInferenceAPI_resume o (settled c st1))
        else None
    end.

Fixpoint run (st : State) (trace : list (nat * Event)) : option State :=
  match trace with
  | [] => Some st
  | e :: trace' =>
      match step st e with
      | Some st' => run st' trace'
      | None => None
      end
  end.

End Component.

(** *** Reading a trace *)

(** The slider changes of a trace, in order, with their times. *)
Fixpoint drags (trace : list (nat * Event)) : list (nat * Q) :=
  match trace with
  | [] => []
  | (t, SliderChange v) :: trace' => (t, v) :: drags trace'
  | (_, FetchSettled _ _) :: trace' => drags trace'
  end.

(** Every drag comes less than 300ms after the drag before it ([prev] is
    the latest drag seen so far). *)
Fixpoint withinQuietPeriod (prev : option (nat * Q))
    (ds : list (nat * Q)) : bool :=
  match ds with
  | [] => true
  | (t, v) :: ds' =>
      match prev with
      | Some (t0, _) => (t <? t0 + DEBOUNCE_MS)%nat
      | None => true
      end
      && withinQuietPeriod (Some (t, v)) ds'
  end.

(** The latest drag after [ds], given the latest one before it. *)
Definition latestDrag (prev : option (nat * Q)) (ds : list (nat * Q))
    : option (nat * Q) :=
  match last ds with
  | Some d => Some d
  | None => prev
  end.

(** No debounced call runs before or at time [t]. *)
Definition timerQuiet (t : nat) (st : State) : Prop :=
  match pendingCall st with
  | Some (due, _) => (t < due)%nat
  | None => True
  end.

(** Where the component stands during a burst of drags that started with
    request log [R0] and [c0] controllers made: before the first drag
    nothing is pending; after a drag [(t, v)] either the debounced call is
    armed for [t + 300] with [v], or it has run and issued its request. *)
Definition burstPhase (props : Props) (R0 : list Request) (c0 : nat)
    (prev : option (nat * Q)) (st : State) : Prop :=
  match prev with
  | None =>
      pendingCall st = None /\ requests st = R0 /\ controllersMade st = c0
  | Some (t, v) =>
      (pendingCall st = Some ((t + DEBOUNCE_MS)%nat, v) /\
       requests st = R0 /\ controllersMade st = c0 /\
       (clock st < t + DEBOUNCE_MS)%nat)
      \/
      (pendingCall st = None /\
       requests st
       = R0 ++ [inferenceRequest props (t + DEBOUNCE_MS)%nat c0 v] /\
       (t + DEBOUNCE_MS <= clock st)%nat)
  end.

(** States the component can reach from its initial render. *)
Definition reachable (props : Props) (st : State) : Prop :=
  exists trace, run props (mount props) trace = Some st.

(** The cancellation discipline: a fetch that is in flight and not aborted
    belongs to the controller held by the ref, and controllers are fresh
    when made. *)
Definition oneLive (st : State) : Prop :=
  (forall c, c ∈ inFlight st -> c ∉ aborted st ->
             abortControllerRef st = Some c) /\
  (forall c, c ∈ aborted st -> (c < controllersMade st)%nat) /\
  (forall c, c ∈ inFlight st -> (c < controllersMade st)%nat) /\
  (forall c, abortControllerRef st = Some c -> controllersMade st = S c).

(** The six fields of the calibration state proper: every cell of the view
    but the loading flag. *)
Definition calibration (w : View) : Q * Q * (Q * Q) * Q * Q * Q :=
  (sliderValue w, aiRecommendedValue w, confidenceInterval w,
   projectedLift w, calibrationScore w, latencyMs w).

(** Example props and response. *)
Definition sample_props : Props :=
  {| skuId := "SKU-001"; currentPrice := 2.99;
     initialConfidenceInterval := (10, 20)%Q; initialAiValue := 15;
     promoType := percentage |}.

Definition sample_response : PromoSimulationResponse :=
  {| projected_lift := 12.5; confidence_interval := (11, 19)%Q;
     ai_recommended_value := 14; calibration_score := 0.9;
     latency_ms := 42; model_version := "v1" |}.

(** The state 300ms after a single drag to 10: the first request is in
    flight. *)
Definition sample_inflight : State :=
  advance sample_props 300
    (handleSliderChange 10 (mount sample_props)).

(** A drag to 10, a second drag to 20 after the first request went out,
    and the state just before the second request goes out. *)
Definition two_bursts : list (nat * Event) :=
  [ (0%nat, SliderChange 10); (400%nat, SliderChange 20) ].

(** The specification's scenario: drags to 10, 12 and 15, 100ms apart. *)
Definition three_drags : list (nat * Event) :=
  [ (0%nat, SliderChange 10); (100%nat, SliderChange 12);
    (200%nat, SliderChange 15) ].

End PromoCalibrationSlider.

(** ** PricingHeatmap: pointer interaction *)
Module PricingHeatmapView.
Import JS PricingHeatmap.

(** The colour of a circle whose region has no data. *)
Definition NO_DATA_COLOR : string := "#e5e7eb".

Record TooltipData : Type := {
  tt_region : RegionPricingData;
  tt_x : Q;
  tt_y : Q
}.

(** The [tooltip] state cell and the calls made to the [onRegionHover] and
    [onRegionClick] props, oldest first ([None] is [null]). *)
Record State : Type := {
  tooltip : option TooltipData;
  hovered : list (option RegionPricingData);
  clicked : list RegionPricingData
}.

Definition initial : State :=
  {| tooltip := None; hovered := []; clicked := [] |}.

(** [regionDataMap.has(code)]. *)
Definition hasData (data : list RegionPricingData) (code : string) : bool :=
  bool_decide (is_Some (regionDataMap data !! code)).

(** [handleRegionHover(regionCode, event)], on the event's [clientX] and
    [clientY]. *)
Definition handleRegionHover (data : list RegionPricingData)
    (regionCode : string) (clientX clientY : Q) (st : State) : State :=
  match regionDataMap data !! regionCode with
  | Some regionData =>
      {| tooltip := Some {| tt_region := regionData;
                            tt_x := clientX; tt_y := clientY |};
         hovered := hovered st ++ [Some regionData];
         clicked := clicked st |}
  | None => st
  end.

Definition handleMouseLeave (st : State) : State :=
  {| tooltip := None;
     hovered := hovered st ++ [None];
     clicked := clicked st |}.

Definition handleRegionClick (data : list RegionPricingData)
    (regionCode : string) (st : State) : State :=
  match regionDataMap data !! regionCode with
  | Some regionData =>
      {| tooltip := tooltip st;
         hovered := hovered st;
         clicked := clicked st ++ [regionData] |}
  | None => st
  end.

(** Pointer events on the circle of a region code. *)
Inductive PointerEvent : Type :=
| MouseEnter (code : string) (clientX clientY : Q)
| MouseLeave (code : string)
| Click (code : string).

(** The three handlers attached to a circle:
    [onMouseEnter={(e) => hasData && handleRegionHover(code, e)}],
    [onMouseLeave={handleMouseLeave}],
    [onClick={() => hasData && handleRegionClick(code)}]. *)
Definition dispatch (data : list RegionPricingData) (st : State)
    (ev : PointerEvent) : State :=
  match ev with
  | MouseEnter code x y =>
      if hasData data code then handleRegionHover data code x y st else st
  | MouseLeave _ => handleMouseLeave st
  | Click code =>
      if hasData data code then handleRegionClick data code st else st
  end.

Definition dispatchAll (data : list RegionPricingData) (st : State)
    (evs : list PointerEvent) : State :=
  foldl (dispatch data) st evs.

End PricingHeatmapView.

(** ** VendorMatrix: the grid *)
Module VendorMatrixView.
Import JS VendorMatrix.

(** [SKU], with the fields the component reads; [data.skus] is passed
    beside the [VendorMatrixData] record above. *)
Record SKU : Type := {
  s_sku_id : string;
  product_name : string;
  category : string
}.

(** [filteredSKUs]: [!filterCategory] holds for the empty string. *)
Definition filteredSKUs (skus : list SKU) (filterCategory : string)
    : list SKU :=
  if bool_decide (filterCategory = ""%string) then skus
  else filter (fun sku => category sku = filterCategory) skus.

(** [Array.from(new Set(xs))]: the distinct elements in the order of their
    first occurrence. *)
Definition Set_from (xs : list string) : list string :=
  foldl (fun acc x => if bool_decide (x ∈ acc) then acc else acc ++ [x])
        [] xs.

Section Categories.
(** The comparator of the default [sort()] (by UTF-16 code units). *)
Variable compareCodeUnits : string -> string -> Z.

(** [categories]. *)
Definition categories (skus : list SKU) : list string :=
  Array_sort compareCodeUnits (Set_from (map category skus)).
End Categories.

(** One entry of the [vendorStats] map.  [coverage] is [None] when
    [data.skus] is empty: the quotient is then not a finite number. *)
Record VendorStat : Type := {
  coverage : option Q;
  bestPrice : Z
}.

Definition statOf (data : VendorMatrixData) (skus : list SKU)
    (vendor : Vendor) : VendorStat :=
  let vendorCells :=
    filter (fun c => vendor_id c = v_vendor_id vendor)
           (flat (matrix data)) in
  let withPricing := filter (fun c => has_pricing c = true) vendorCells in
  let bestPriceCount :=
    array_length (filter (fun c => price_rank c = Some 1) vendorCells) in
  {| coverage :=
       if bool_decide (array_length skus = 0) then None
       else Some (inject_Z (array_length withPricing)
                  / inject_Z (array_length skus) * 100)%Q;
     bestPrice := bestPriceCount |}.

(** [vendorStats]: filled by a [forEach] over the sorted vendors. *)
Definition vendorStats (data : VendorMatrixData) (skus : list SKU)
    (sorted : list Vendor) : gmap string VendorStat :=
  foldl (fun stats vendor =>
           <[ v_vendor_id vendor := statOf data skus vendor ]> stats)
        ∅ sorted.

(** [getCell(vendorId, skuId)]: the first matching cell of the flattened
    matrix. *)
Definition getCell (data : VendorMatrixData) (vendorId skuId : string)
    : option VendorMatrixCell :=
  List.find (fun c => bool_decide (vendor_id c = vendorId)
                      && bool_decide (sku_id c = skuId))
            (flat (matrix data)).

(** Truthiness of [cell.price_rank]. *)
Definition rankTruthy (c : VendorMatrixCell) : bool :=
  match price_rank c with
  | Some r => negb (r =? 0)
  | None => false
  end.

(** [getCellColor(cell, skuId)] under the two display props. *)
Definition getCellColor (showPriceRanking highlightSingleSource : bool)
    (data : VendorMatrixData) (cell : option VendorMatrixCell)
    (skuId : string) : string :=
  match cell with
  | None => "transparent"
  | Some c =>
      if negb (has_pricing c) then "transparent"
      else
        let singleSource :=
          highlightSingleSource && isSingleSource data skuId in
        if showPriceRanking && rankTruthy c then
          if bool_decide (price_rank c = Some 1)
          then (if singleSource then "#fde68a" else "#bbf7d0")
          else if bool_decide (price_rank c = Some 2) then "#bfdbfe"
          else if bool_decide (price_rank c = Some 3) then "#e5e7eb"
          else "#f3f4f6"
        else if singleSource then "#fde68a" else "#dbeafe"
  end%string.

Record CellTooltip : Type := {
  ct_cell : VendorMatrixCell;
  ct_vendor : Vendor;
  ct_sku : SKU;
  ct_x : Q;
  ct_y : Q
}.

(** The [tooltip] state cell and the calls made to [onCellClick]. *)
Record State : Type := {
  tooltip : option CellTooltip;
  cellClicks : list VendorMatrixCell
}.

Definition initial : State := {| tooltip := None; cellClicks := [] |}.

Definition handleCellHover (cell : VendorMatrixCell) (vendor : Vendor)
    (sku : SKU) (clientX clientY : Q) (st : State) : State :=
  if has_pricing cell
  then {| tooltip := Some {| ct_cell := cell; ct_vendor := vendor;
                             ct_sku := sku; ct_x := clientX;
                             ct_y := clientY |};
          cellClicks := cellClicks st |}
  else st.

Definition handleMouseLeave (st : State) : State :=
  {| tooltip := None; cellClicks := cellClicks st |}.

(** Pointer events on the table cell of a vendor row and a SKU column. *)
Inductive CellEvent : Type :=
| CellEnter (vendor : Vendor) (sku : SKU) (clientX clientY : Q)
| CellLeave
| CellClick (vendor : Vendor) (sku : SKU).

(** The handlers of a [td]: [cell && handleCellHover(...)],
    [handleMouseLeave], [cell && onCellClick?.(cell)], with
    [cell = getCell(vendor.vendor_id, sku.sku_id)]. *)
Definition dispatch (data : VendorMatrixData) (st : State)
    (ev : CellEvent) : State :=
  match ev with
  | CellEnter vendor sku x y =>
      match getCell data (v_vendor_id vendor) (s_sku_id sku) with
      | Some cell => handleCellHover cell vendor sku x y st
      | None => st
      end
  | CellLeave => handleMouseLeave st
  | CellClick vendor sku =>
      match getCell data (v_vendor_id vendor) (s_sku_id sku) with
      | Some cell =>
          {| tooltip := tooltip st; cellClicks := cellClicks st ++ [cell] |}
      | None => st
      end
  end.

Definition dispatchAll (data : VendorMatrixData) (st : State)
    (evs : list CellEvent) : State :=
  foldl (dispatch data) st evs.

(** Example data with ranks: all cells are priced; vendor A is cheapest
    for one of three SKUs, vendor B for the other two. *)
Definition ranked_data : VendorMatrixData :=
  {| vendors := [vendorA; vendorB];
     matrix :=
       [ [ {| vendor_id := "A"; sku_id := "S1"; has_pricing := true;
              price_rank := Some 1 |};
           {| vendor_id := "A"; sku_id := "S2"; has_pricing := true;
              price_rank := Some 2 |};
           {| vendor_id := "A"; sku_id := "S3"; has_pricing := true;
              price_rank := Some 2 |} ];
         [ {| vendor_id := "B"; sku_id := "S1"; has_pricing := true;
              price_rank := Some 2 |};
           {| vendor_id := "B"; sku_id := "S2"; has_pricing := true;
              price_rank := Some 1 |};
           {| vendor_id := "B"; sku_id := "S3"; has_pricing := true;
              price_rank := Some 1 |} ] ] |}.

(** Example SKUs. *)
Definition sample_skus : list SKU :=
  [ {| s_sku_id := "S1"; product_name := "Oak plank";
       category := "flooring" |};
    {| s_sku_id := "S2"; product_name := "Copper pipe";
       category := "plumbing" |};
    {| s_sku_id := "S3"; product_name := "Maple plank";
       category := "flooring" |} ].

End VendorMatrixView.

(** ** PromoCalibrationSlider: derived display values *)
Module PromoCalibrationSliderView.
Import PromoCalibrationSlider.

Record SliderConfig : Type := {
  cfg_min : Q;
  cfg_max : Q;
  cfg_step : Q;
  cfg_unit : string
}.

Definition getSliderConfig (promoType : PromoType) : SliderConfig :=
  match promoType with
  | percentage =>
      {| cfg_min := 0; cfg_max := 50; cfg_step := 1; cfg_unit := "%" |}
  | volume =>
      {| cfg_min := 0; cfg_max := 500; cfg_step := 10;
         cfg_unit := " units" |}
  end.

Definition calculatePosition (sliderConfig : SliderConfig) (value : Q) : Q :=
  let range := (cfg_max sliderConfig - cfg_min sliderConfig)%Q in
  ((value - cfg_min sliderConfig) / range * 100)%Q.

(** The four positions and the band width computed on each render. *)
Definition sliderPosition (c : SliderConfig) (w : View) : Q :=
  calculatePosition c (sliderValue w).
Definition aiPosition (c : SliderConfig) (w : View) : Q :=
  calculatePosition c (aiRecommendedValue w).
Definition confidenceLowerPosition (c : SliderConfig) (w : View) : Q :=
  calculatePosition c (fst (confidenceInterval w)).
Definition confidenceUpperPosition (c : SliderConfig) (w : View) : Q :=
  calculatePosition c (snd (confidenceInterval w)).
Definition confidenceWidth (c : SliderConfig) (w : View) : Q :=
  (confidenceUpperPosition c w - confidenceLowerPosition c w)%Q.

(** [loading = isLoading || externalLoading]. *)
Definition loading (externalLoading : bool) (w : View) : bool :=
  isLoading w || externalLoading.

(** The ref's controller is in flight and not aborted. *)
Definition currentLive (st : State) : Prop :=
  exists c, abortControllerRef st = Some c /\
            c ∈ inFlight st /\ c ∉ aborted st.

(** What the request log and the debounce wrapper say about the slider:
    a pending call carries the displayed value; with nothing pending the
    latest request, if any, was made for the displayed value, and without
    any request the slider has not been dragged. *)
Definition requestMatchesSlider (st : State) : Prop :=
  match pendingCall st with
  | Some (_, v) => sliderValue (view st) = v
  | None =>
      match last (requests st) with
      | Some r => req_promo_value r = sliderValue (view st)
      | None => valueChanges st = []
      end
  end.

(** The state after the trace [two_bursts]: the first request is in
    flight and the second drag's debounced call is pending. *)
Definition after_two_bursts : State :=
  handleSliderChange 20
    (advance sample_props 400
       (handleSliderChange 10
          (advance sample_props 0 (mount sample_props)))).

(** A trace made of fetch settlements only. *)
Definition settlementsOnly (trace : list (nat * Event)) : Prop :=
  drags trace = [].

End PromoCalibrationSliderView.

(** ** SKUSearch: the panel with its debounced text search *)
Module SKUSearchPanel.
Import SKUSearch.

(** [activeFilterCount]: the property values that are neither
    [undefined] nor the empty string. *)
Definition isActive (v : Value) : bool :=
  match v with
  | Undefined => false
  | Str s => negb (bool_decide (s = ""%string))
  | _ => true
  end.

Definition activeFilterCount (fs : gmap string Value) : nat :=
  length (filter (fun kv => isActive kv.2 = true) (map_to_list fs)).

(** One pending call of a debounce wrapper: the wrapper it belongs to,
    the time it is due and the argument it will pass on. *)
Record Timer : Type := {
  wrapper : nat;
  due : nat;
  arg : gmap string Value
}.

(** The panel: the state above, the debounce wrapper that
    [useMemo(() => debounce(..., 300), [onSearch])] currently holds, the
    pending calls of all the wrappers made so far, in the order they
    were armed, and the clock.  A wrapper is never cancelled: a new one
    is made when [onSearch] changes identity, and a pending call of an
    older wrapper still runs when it is due. *)
Record Panel : Type := {
  base : State;
  debouncedSearch : nat;
  timers : list Timer;
  clock : nat
}.

Definition DEBOUNCE_MS : nat := 300.

Definition open (initialFilters : gmap string Value) : Panel :=
  {| base := {| filters := initialFilters; searches := [] |};
     debouncedSearch := 0%nat;
     timers := [];
     clock := 0%nat |}.

(** [debouncedSearch(newFilters)]: the wrapper drops the call it has
    pending, if any, and arms a new one. *)
Definition call_debouncedSearch (newFilters : gmap string Value)
    (p : Panel) : list Timer :=
  filter (fun tm => wrapper tm <> debouncedSearch p) (timers p)
  ++ [ {| wrapper := debouncedSearch p;
          due := (clock p + DEBOUNCE_MS)%nat;
          arg := newFilters |} ].

(** [handleQueryChange], on [e.target.value]: the text is stored as it
    is, and the search goes through the current debounce wrapper. *)
Definition handleQueryChange (text : string) (p : Panel) : Panel :=
  let newFilters := <[ "query"%string := Str text ]> (filters (base p)) in
  {| base := {| filters := newFilters; searches := searches (base p) |};
     debouncedSearch := debouncedSearch p;
     timers := call_debouncedSearch newFilters p;
     clock := clock p |}.

(** A render with an [onSearch] prop of a new identity: [useMemo] makes
    a new wrapper and leaves the old one alone. *)
Definition onSearchChanged (p : Panel) : Panel :=
  {| base := base p;
     debouncedSearch := S (debouncedSearch p);
     timers := timers p;
     clock := clock p |}.

Inductive Event : Type :=
| QueryChange (text : string)
| FilterChange (key : string) (value : Value)
| ClearFilters
| OnSearchChange.

(** Timers run in the order of their due times, and in the order they
    were armed when due at the same time. *)
Definition dueOrder (a b : Timer) : Prop := (due a <= due b)%nat.

#[global] Instance dueOrder_dec : RelDecision dueOrder :=
  fun a b => decide (due a <= due b)%nat.

(** The pending calls that run by time [t], in the order they run. *)
Definition fired (t : nat) (l : list Timer) : list Timer :=
  merge_sort dueOrder (filter (fun tm => (due tm <= t)%nat) l).

(** The pending calls still waiting at time [t]. *)
Definition waiting (t : nat) (l : list Timer) : list Timer :=
  filter (fun tm => (t < due tm)%nat) l.

(** Let time pass until [t]: each pending debounced search that is due
    by then calls [onSearch] with the filters it was armed with. *)
Definition advance (t : nat) (p : Panel) : Panel :=
  {| base := {| filters := filters (base p);
                searches := searches (base p)
                            ++ (arg <$> fired t (timers p)) |};
     debouncedSearch := debouncedSearch p;
     timers := waiting t (timers p);
     clock := t |}.

(** One event at time [t]; [None] when time would run backwards. *)
Definition step (p : Panel) (e : nat * Event) : option Panel :=
  let '(t, ev) := e in
  if (t <? clock p)%nat then None
  else
    let p1 := advance t p in
    match ev with
    | QueryChange text => Some (handleQueryChange text p1)
    | FilterChange key value =>
        Some {| base := handleFilterChange key value (base p1);
                debouncedSearch := debouncedSearch p1;
                timers := timers p1;
                clock := clock p1 |}
    | ClearFilters =>
        Some {| base := handleClearFilters (base p1);
                debouncedSearch := debouncedSearch p1;
                timers := timers p1;
                clock := clock p1 |}
    | OnSearchChange => Some (onSearchChanged p1)
    end.

Fixpoint run (p : Panel) (trace : list (nat * Event)) : option Panel :=
  match trace with
  | [] => Some p
  | e :: trace' =>
      match step p e with
      | Some p' => run p' trace'
      | None => None
      end
  end.

(** The texts typed in a trace, in order, with their times; [None] when
    the trace holds another kind of event. *)
Fixpoint typed (trace : list (nat * Event)) : option (list (nat * string)) :=
  match trace with
  | [] => Some []
  | (t, QueryChange text) :: trace' =>
      match typed trace' with
      | Some l => Some ((t, text) :: l)
      | None => None
      end
  | _ => None
  end.

(** Every keystroke comes less than 300ms after the one before it. *)
Fixpoint withinQuietPeriod (prev : option nat) (ks : list (nat * string))
    : bool :=
  match ks with
  | [] => true
  | (t, _) :: ks' =>
      match prev with
      | Some t0 => (t <? t0 + DEBOUNCE_MS)%nat
      | None => true
      end
      && withinQuietPeriod (Some t) ks'
  end.

End SKUSearchPanel.

(** ** getColorFromScale over IEEE 754 binary64

    The component models above compute with exact rationals.  Where a
    property of [getColorFromScale] depends on what double-precision
    arithmetic does at the edge of its range, the function is embedded
    a second time over the binary64 numbers that JavaScript actually
    computes with. *)
Module PricingHeatmapDouble.
Import JS PricingHeatmap.
Import PrimFloat.

(** The value of [Math.floor(x)] or of [Math.min(Math.floor(x), n)]:
    [NaN], an infinity, or a (mathematical) integer. *)
Inductive Floored : Type :=
| NotANumber
| Infinite (negative : bool)
| Integer (z : Z).

(** [Number.MAX_VALUE]. *)
Definition MAX_VALUE : PrimFloat.float := 0x1.fffffffffffffp+1023%float.

(** [Math.floor]: a finite double is [(-1)^s * m * 2^e]. *)
Definition Math_floor (x : PrimFloat.float) : Floored :=
  match FloatOps.Prim2SF x with
  | SpecFloat.S754_nan => NotANumber
  | SpecFloat.S754_infinity s => Infinite s
  | SpecFloat.S754_zero _ => Integer 0
  | SpecFloat.S754_finite s m e =>
      let n := if s then Z.neg m else Z.pos m in
      Integer (if 0 <=? e then n * 2 ^ e else n / 2 ^ (- e))
  end.

(** [Math.min(x, n)] for an integer [n]. *)
Definition Math_min (x : Floored) (n : Z) : Floored :=
  match x with
  | NotANumber => NotANumber
  | Infinite true => Infinite true
  | Infinite false => Integer n
  | Integer z => Integer (Z.min z n)
  end.

(** [a[x]]: [undefined] unless [x] is an index of [a]. *)
Definition array_get_floored {A : Type} (a : list A) (x : Floored)
    : option A :=
  match x with
  | Integer z => array_get a z
  | _ => None
  end.

(** [colorScale.length] as a double. *)
Definition length_double (len : Z) : PrimFloat.float :=
  PrimFloat.of_uint63 (Uint63.of_Z len).

Definition scaleIndex (value min max : PrimFloat.float) (len : Z)
    : Floored :=
  let normalized :=
    PrimFloat.div (PrimFloat.sub value min) (PrimFloat.sub max min) in
  Math_min (Math_floor (PrimFloat.mul normalized (length_double len)))
           (len - 1).

Definition middleIndex (len : Z) : Floored :=
  Math_floor (PrimFloat.div (length_double len) 2%float).

Definition getColorFromScale
    (value min max : PrimFloat.float) (colorScale : list string)
    : option string :=
  if PrimFloat.eqb max min
  then array_get_floored colorScale (middleIndex (array_length colorScale))
  else array_get_floored colorScale
         (scaleIndex value min max (array_length colorScale)).

(** [a <= b] on indices, as JavaScript compares numbers: false as soon
    as one side is [NaN]. *)
Definition index_le (a b : Floored) : bool :=
  match a, b with
  | NotANumber, _ | _, NotANumber => false
  | Infinite true, _ => true
  | _, Infinite false => true
  | Infinite false, _ => false
  | _, Infinite true => false
  | Integer x, Integer y => x <=? y
  end.

End PricingHeatmapDouble.

(** ** PromoCalibrationSlider: the events the rendered input delivers *)
Module PromoCalibrationSliderUI.
Import PromoCalibrationSlider PromoCalibrationSliderView.

Section Rendered.
Variable props : Props.

(** One event as the rendered component receives it.  The range input is
    rendered with [disabled={loading}], so a change event arrives only
    while [loading] is false; [externalLoading] is the value of the
    [isLoading] prop at that render.  Timers that are due run first, as
    in [step]; settlements are not gated. *)
Definition stepUI (st : State) (e : bool * (nat * Event)) : option State :=
  let '(externalLoading, (t, ev)) := e in
  match ev with
  | SliderChange _ =>
      if loading externalLoading (view (advance props t st))
      then None
      else step props st (t, ev)
  | FetchSettled _ _ => step props st (t, ev)
  end.

Fixpoint runUI (st : State) (trace : list (bool * (nat * Event)))
    : option State :=
  match trace with
  | [] => Some st
  | e :: trace' =>
      match stepUI st e with
      | Some st' => runUI st' trace'
      | None => None
      end
  end.

End Rendered.

(** States the rendered component can reach from its initial render. *)
Definition reachableUI (props : Props) (st : State) : Prop :=
  exists trace, runUI props (mount props) trace = Some st.

(** At most one request at a time: a fetch in flight is the one of the
    ref's controller, it is not aborted, the loading flag is set and no
    debounced call is waiting. *)
Definition singleFlight (st : State) : Prop :=
  forall c, c ∈ inFlight st ->
    abortControllerRef st = Some c /\ (c ∉ aborted st) /\
    isLoading (view st) = true /\ pendingCall st = None.

(** A drag to 10 while nothing is loading, and the state it leaves: the
    debounced call is armed for 300ms. *)
Definition one_drag : list (bool * (nat * Event)) :=
  [ (false, (0%nat, SliderChange 10)) ].

Definition after_one_drag : State :=
  handleSliderChange 10 (advance sample_props 0 (mount sample_props)).

End PromoCalibrationSliderUI.

(** * Part II: properties *)

(** ** Facts about the built-ins *)
Module JSFacts.
Import JS.

Lemma array_get_in_bounds {A : Type} (a : list A) (i : Z) :
  0 <= i < array_length a -> exists x, array_get a i = Some x /\ x ∈ a.
Proof.
  unfold array_get, array_length. intros [Hlo Hhi].
  destruct (Z.ltb_spec i 0) as [Hneg | _]; [lia |].
  destruct (lookup_lt_is_Some_2 a (Z.to_nat i)) as [x Hx]; [lia |].
  exists x. split; [exact Hx |]. eapply list_elem_of_lookup_2, Hx.
Qed.

Lemma array_get_negative {A : Type} (a : list A) (i : Z) :
  i < 0 -> array_get a i = None.
Proof.
  unfold array_get. intros Hneg.
  destruct (Z.ltb_spec i 0); [reflexivity | lia].
Qed.

Lemma array_get_nat {A : Type} (a : list A) (n : nat) :
  array_get a (Z.of_nat n) = a !! n.
Proof.
  unfold array_get.
  destruct (Z.ltb_spec (Z.of_nat n) 0); [lia |].
  by rewrite Nat2Z.id.
Qed.

(** [Math.min] of a non-empty list is one of its elements and a lower
    bound of all of them. *)
Lemma Math_min_spec (vs : list Q) (v : Q) :
  Math_min v vs ∈ v :: vs /\
  Forall (fun x => (Math_min v vs <= x)%Q) (v :: vs).
Proof.
  unfold Math_min. revert v.
  induction vs as [| w vs IH]; intros v; simpl.
  - split; [left | repeat constructor; apply Qle_refl].
  - destruct (IH (Qmin v w)) as [Hin Hall].
    inversion Hall as [| ? ? Hhd Htl]; subst.
    split.
    + apply elem_of_cons in Hin as [Heq | Hin].
      * rewrite Heq. unfold Qmin, GenericMinMax.gmin.
        destruct (v ?= w)%Q; [left | left | right; left].
      * right; right; exact Hin.
    + constructor; [| constructor; [| exact Htl]].
      * eapply Qle_trans; [exact Hhd | apply Q.le_min_l].
      * eapply Qle_trans; [exact Hhd | apply Q.le_min_r].
Qed.

Lemma Math_max_spec (vs : list Q) (v : Q) :
  Math_max v vs ∈ v :: vs /\
  Forall (fun x => (x <= Math_max v vs)%Q) (v :: vs).
Proof.
  unfold Math_max. revert v.
  induction vs as [| w vs IH]; intros v; simpl.
  - split; [left | repeat constructor; apply Qle_refl].
  - destruct (IH (Qmax v w)) as [Hin Hall].
    inversion Hall as [| ? ? Hhd Htl]; subst.
    split.
    + apply elem_of_cons in Hin as [Heq | Hin].
      * rewrite Heq. unfold Qmax, GenericMinMax.gmax.
        destruct (v ?= w)%Q; [left | right; left | left].
      * right; right; exact Hin.
    + constructor; [| constructor; [| exact Htl]].
      * eapply Qle_trans; [apply Q.le_max_l | exact Hhd].
      * eapply Qle_trans; [apply Q.le_max_r | exact Hhd].
Qed.

End JSFacts.

(** ** PricingHeatmap *)
Module PricingHeatmapSpec.
Import JS JSFacts PricingHeatmap.

Lemma middleIndex_half (n : nat) :
  middleIndex (Z.of_nat n) = Z.of_nat (n / 2).
Proof.
  rewrite Nat2Z.inj_div.
  unfold middleIndex, Qfloor, Qdiv, Qmult, Qinv, inject_Z. simpl.
  by rewrite Z.mul_1_r.
Qed.

Lemma Qeq_bool_false_of_lt (min max : Q) :
  (min < max)%Q -> Qeq_bool max min = false.
Proof.
  intros Hlt. destruct (Qeq_bool max min) eqn:E; [| reflexivity].
  apply Qeq_bool_eq in E. rewrite E in Hlt.
  exfalso. exact (Qlt_irrefl _ Hlt).
Qed.

(** The scaled position [normalized * len] grows with the value. *)
Lemma scaled_mono (v1 v2 min max : Q) (len : Z) :
  (min < max)%Q -> (v1 <= v2)%Q -> 0 <= len ->
  ((v1 - min) / (max - min) * inject_Z len
   <= (v2 - min) / (max - min) * inject_Z len)%Q.
Proof.
  intros Hlt Hle Hlen.
  assert (Hpos : (0 < / (max - min))%Q) by (apply Qinv_lt_0_compat; lra).
  apply Qmult_le_compat_r.
  - unfold Qdiv. apply Qmult_le_compat_r; [lra | by apply Qlt_le_weak].
  - change 0%Q with (inject_Z 0). by rewrite <- Zle_Qle.
Qed.

Lemma scaled_nonneg (v min max : Q) (len : Z) :
  (min < max)%Q -> (min <= v)%Q -> 0 <= len ->
  (0 <= (v - min) / (max - min) * inject_Z len)%Q.
Proof.
  intros Hlt Hle Hlen.
  assert (Hpos : (0 < / (max - min))%Q) by (apply Qinv_lt_0_compat; lra).
  apply Qmult_le_0_compat.
  - unfold Qdiv. apply Qmult_le_0_compat; [lra | by apply Qlt_le_weak].
  - change 0%Q with (inject_Z 0). by rewrite <- Zle_Qle.
Qed.

Lemma scaled_negative (v min max : Q) (len : Z) :
  (min < max)%Q -> (v < min)%Q -> 0 < len ->
  ((v - min) / (max - min) * inject_Z len < 0)%Q.
Proof.
  intros Hlt Hle Hlen.
  assert (Hpos : (0 < / (max - min))%Q) by (apply Qinv_lt_0_compat; lra).
  assert (Hl : (0 < inject_Z len)%Q).
  { change 0%Q with (inject_Z 0). by rewrite <- Zlt_Qlt. }
  assert (Hn : (0 < (min - v) / (max - min))%Q).
  { unfold Qdiv. apply Qmult_lt_0_compat; [lra | exact Hpos]. }
  assert (Hm : (0 < (min - v) / (max - min) * inject_Z len)%Q)
    by (by apply Qmult_lt_0_compat).
  assert (Heq : ((v - min) / (max - min) * inject_Z len
                 == - ((min - v) / (max - min) * inject_Z len))%Q).
  { field. lra. }
  rewrite Heq. lra.
Qed.

(** Inside the domain the function does return a palette entry. *)
Lemma getColorFromScale_in_domain (value min max : Q) (cs : list string) :
  (min < max)%Q -> (min <= value)%Q -> cs <> [] ->
  exists c, getColorFromScale value min max cs = Some c /\ c ∈ cs.
Proof.
  intros Hlt Hle Hne. unfold getColorFromScale.
  rewrite (Qeq_bool_false_of_lt _ _ Hlt).
  apply array_get_in_bounds.
  assert (Hlen : 0 < array_length cs).
  { unfold array_length. destruct cs; [done | simpl; lia]. }
  unfold scaleIndex. split; [| lia].
  apply Z.min_glb; [| lia].
  rewrite <- (Qfloor_Z 0). apply Qfloor_resp_le.
  apply scaled_nonneg; [done | done | lia].
Qed.

(** Below the domain the index is negative and the read gives
    [undefined]. *)
Lemma getColorFromScale_below_domain (value min max : Q) (cs : list string) :
  (min < max)%Q -> (value < min)%Q -> cs <> [] ->
  getColorFromScale value min max cs = None.
Proof.
  intros Hlt Hle Hne. unfold getColorFromScale.
  rewrite (Qeq_bool_false_of_lt _ _ Hlt).
  apply array_get_negative.
  assert (Hlen : 0 < array_length cs).
  { unfold array_length. destruct cs; [done | simpl; lia]. }
  unfold scaleIndex.
  pose proof (scaled_negative value min max _ Hlt Hle Hlen) as Hneg.
  pose proof (Qfloor_le ((value - min) / (max - min)
                         * inject_Z (array_length cs))) as Hfl.
  assert (Hz : (inject_Z (Qfloor ((value - min) / (max - min)
                 * inject_Z (array_length cs))) < inject_Z 0)%Q).
  { change (inject_Z 0) with 0%Q. lra. }
  rewrite <- Zlt_Qlt in Hz. lia.
Qed.

(** The end-to-end scenario of the specification: CA at 3.50 and TX at
    1.90 on the default palette give the last and the first colour. *)
Example scenario_CA_TX :
  colorRange [CA 3.5; TX 1.9] m_avg_price no_overrides
    = {| minValue := 1.9; maxValue := 3.5 |} /\
  getRegionColor [CA 3.5; TX 1.9] m_avg_price no_overrides
    DEFAULT_COLOR_SCALE "CA" = Some "#ef4444"%string /\
  getRegionColor [CA 3.5; TX 1.9] m_avg_price no_overrides
    DEFAULT_COLOR_SCALE "TX" = Some "#22c55e"%string.
Proof. repeat split; vm_compute; reflexivity. Qed.

(** C1 (what the code does).  A value below [min] is not clamped to the
    first palette entry.  With the caller's bounds [minValue = 2] and
    [maxValue = 4], a region whose average price is 1 gets the index
    floor(-0.5 * 5) = -3, and the colour read from the default five-colour
    palette is [undefined] instead of one of the five entries. *)
Theorem getColorFromScale_below_min_undefined :
  scaleIndex 1 2 4 (array_length DEFAULT_COLOR_SCALE) = -3 /\
  getColorFromScale 1 2 4 DEFAULT_COLOR_SCALE = None /\
  getRegionColor [CA 1] m_avg_price
    {| cfg_minValue := Some 2%Q; cfg_maxValue := Some 4%Q |}
    DEFAULT_COLOR_SCALE "CA" = None.
Proof. repeat split; vm_compute; reflexivity. Qed.

(** C6.  When [min] equals [max] the function returns the palette entry at
    index floor(N/2), whatever the value. *)
Theorem getColorFromScale_degenerate
    (value min max : Q) (colorScale : list string) :
  (min == max)%Q ->
  getColorFromScale value min max colorScale
  = colorScale !! (length colorScale / 2)%nat.
Proof.
  intros Heq. unfold getColorFromScale.
  assert (E : Qeq_bool max min = true)
    by (apply Qeq_eq_bool; symmetry; exact Heq).
  rewrite E. unfold array_length.
  by rewrite middleIndex_half, array_get_nat.
Qed.

Lemma getColorFromScale_degenerate_witness :
  (3 == 3)%Q /\
  getColorFromScale 7 3 3 DEFAULT_COLOR_SCALE
  = DEFAULT_COLOR_SCALE !! (length DEFAULT_COLOR_SCALE / 2)%nat.
Proof.
  split; [reflexivity |].
  apply (getColorFromScale_degenerate 7 3 3 DEFAULT_COLOR_SCALE).
  reflexivity.
Defined.

(** Over exact rationals the index of the non-degenerate branch is
    non-decreasing in the value. *)
Lemma scaleIndex_monotone_exact (v1 v2 min max : Q) (len : Z) :
  (min < max)%Q -> (v1 <= v2)%Q -> 0 <= len ->
  scaleIndex v1 min max len <= scaleIndex v2 min max len.
Proof.
  intros Hlt Hle Hlen. unfold scaleIndex. apply Z.min_le_compat_r.
  by apply Qfloor_resp_le, scaled_mono.
Qed.

(** C5.  With no regions the range is exactly 0..100, both totals are 0
    and the average price cell shows the text $0.00.  With at least one
    region each bound is the caller's override when there is one, and
    otherwise the least (greatest) value over the regions of the field the
    selected metric names: [avg_price] for average-price, [vendor_count]
    for vendor-count, [price_index] for price-index. *)
Theorem heatmap_range_and_summary
    (data : list RegionPricingData) (selectedMetric : Metric)
    (config : HeatmapConfig) :
  (colorRange [] selectedMetric config
     = {| minValue := 0; maxValue := 100 |} /\
   totalVendors [] = 0%Q /\
   totalSKUs [] = 0%Q /\
   avgPriceAllRegions [] = Text "$0.00") /\
  (data <> [] ->
   let values :=
     match selectedMetric with
     | m_avg_price => map avg_price data
     | m_vendor_count => map vendor_count data
     | m_price_index => map price_index data
     end in
   let r := colorRange data selectedMetric config in
   match cfg_minValue config with
   | Some lo => minValue r = lo
   | None => is_minimum (minValue r) values
   end /\
   match cfg_maxValue config with
   | Some hi => maxValue r = hi
   | None => is_maximum (maxValue r) values
   end).
Proof.
  split; [repeat split |].
  intros Hne values r. subst r.
  assert (Hvalues : values = map (metricValue selectedMetric) data)
    by (by destruct selectedMetric).
  rewrite Hvalues. clear values Hvalues. unfold colorRange.
  destruct (map (metricValue selectedMetric) data) as [| v vs] eqn:E.
  { destruct data; [done | discriminate]. }
  simpl. split.
  - destruct (cfg_minValue config); simpl; [reflexivity |].
    destruct (Math_min_spec vs v) as [Hin Hall].
    split; [exact Hin |]. by apply Forall_forall.
  - destruct (cfg_maxValue config); simpl; [reflexivity |].
    destruct (Math_max_spec vs v) as [Hin Hall].
    split; [exact Hin |]. by apply Forall_forall.
Qed.

Lemma heatmap_range_and_summary_witness :
  [NY; FL] <> [] /\
  (is_minimum (minValue (colorRange [NY; FL] m_avg_price no_overrides))
     [2.5%Q; 4%Q] /\
   is_maximum (maxValue (colorRange [NY; FL] m_avg_price no_overrides))
     [2.5%Q; 4%Q]) /\
  (is_minimum (minValue (colorRange [NY; FL] m_vendor_count no_overrides))
     [9%Q; 6%Q] /\
   is_maximum (maxValue (colorRange [NY; FL] m_vendor_count no_overrides))
     [9%Q; 6%Q]) /\
  (is_minimum (minValue (colorRange [NY; FL] m_price_index no_overrides))
     [0.3%Q; 0.7%Q] /\
   is_maximum (maxValue (colorRange [NY; FL] m_price_index no_overrides))
     [0.3%Q; 0.7%Q]) /\
  minValue (colorRange [NY; FL] m_vendor_count
              {| cfg_minValue := Some 1%Q; cfg_maxValue := None |}) = 1%Q.
Proof.
  assert (Hne : [NY; FL] <> []) by discriminate.
  split; [exact Hne |].
  split; [exact (proj2 (heatmap_range_and_summary
                          [NY; FL] m_avg_price no_overrides) Hne) |].
  split; [exact (proj2 (heatmap_range_and_summary
                          [NY; FL] m_vendor_count no_overrides) Hne) |].
  split; [exact (proj2 (heatmap_range_and_summary
                          [NY; FL] m_price_index no_overrides) Hne) |].
  exact (proj1 (proj2 (heatmap_range_and_summary [NY; FL] m_vendor_count
                         {| cfg_minValue := Some 1%Q; cfg_maxValue := None |})
                  Hne)).
Defined.

End PricingHeatmapSpec.

(** ** The sort built-in: permutation, order and stability *)
Module SortFacts.
Import JS.

Section AnyComparator.
Context {A : Type} (compare : A -> A -> Z).

Lemma sort_insert_perm (x : A) (l : list A) :
  sort_insert compare x l ≡ₚ x :: l.
Proof.
  induction l as [| y l IH]; simpl; [done |].
  destruct (compare x y <=? 0); [done |].
  rewrite IH. apply Permutation_swap.
Qed.

Lemma Array_sort_perm (l : list A) : Array_sort compare l ≡ₚ l.
Proof.
  unfold Array_sort. induction l as [| x l IH]; simpl; [done |].
  by rewrite sort_insert_perm, IH.
Qed.

End AnyComparator.

Section DescendingByKey.
Context {A : Type} (compare : A -> A -> Z) (key : A -> Z).
Hypothesis compare_key : forall a b, compare a b = key b - key a.

Lemma sort_insert_sorted (x : A) (l : list A) :
  StronglySorted (fun a b => key b <= key a) l ->
  StronglySorted (fun a b => key b <= key a) (sort_insert compare x l).
Proof.
  induction 1 as [| y l Hs IH Hall]; simpl.
  - repeat constructor.
  - rewrite compare_key.
    destruct (Z.leb_spec (key y - key x) 0) as [Hle | Hgt].
    + constructor; [by constructor |].
      constructor; [lia |].
      eapply Forall_impl; [exact Hall |]. simpl. intros z Hz. lia.
    + constructor; [exact IH |].
      rewrite (sort_insert_perm compare x l).
      constructor; [lia | exact Hall].
Qed.

Lemma Array_sort_sorted (l : list A) :
  StronglySorted (fun a b => key b <= key a) (Array_sort compare l).
Proof.
  unfold Array_sort. induction l as [| x l IH]; simpl.
  - constructor.
  - by apply sort_insert_sorted.
Qed.

Lemma sort_insert_filter (n : Z) (x : A) (l : list A) :
  filter (fun v => key v = n) (sort_insert compare x l)
  = filter (fun v => key v = n) (x :: l).
Proof.
  induction l as [| y l IH]; simpl; [done |].
  rewrite compare_key.
  destruct (Z.leb_spec (key y - key x) 0) as [Hle | Hgt]; [done |].
  rewrite (filter_cons _ y (sort_insert _ _ _)), IH.
  rewrite (filter_cons _ x (y :: l)), (filter_cons _ y l), (filter_cons _ x l).
  destruct (decide (key y = n)) as [Hy | Hy]; [| done].
  destruct (decide (key x = n)) as [Hx | Hx]; [lia | done].
Qed.

Lemma Array_sort_stable (n : Z) (l : list A) :
  filter (fun v => key v = n) (Array_sort compare l)
  = filter (fun v => key v = n) l.
Proof.
  unfold Array_sort. induction l as [| x l IH]; simpl; [done |].
  rewrite sort_insert_filter, !filter_cons, IH. done.
Qed.

End DescendingByKey.

Lemma StronglySorted_lookup {A : Type} (R : A -> A -> Prop) (l : list A)
    (i j : nat) (a b : A) :
  StronglySorted R l -> l !! i = Some a -> l !! j = Some b ->
  (i < j)%nat -> R a b.
Proof.
  intros Hs. revert i j.
  induction Hs as [| x l Hs IH Hall]; intros i j Hi Hj Hlt; [done |].
  destruct j as [| j]; [lia |]. simpl in Hj.
  destruct i as [| i]; simpl in Hi.
  - inversion Hi; subst. rewrite Forall_forall in Hall.
    apply Hall. eapply list_elem_of_lookup_2, Hj.
  - eapply IH; [exact Hi | exact Hj | lia].
Qed.

End SortFacts.

(** ** VendorMatrix *)
Module VendorMatrixSpec.
Import JS SortFacts VendorMatrix.

(** A filtered list has exactly one element iff exactly one position of
    the list satisfies the predicate. *)
Lemma filter_length_one {A : Type} (P : A -> Prop)
    `{!forall x, Decision (P x)} (l : list A) :
  length (filter P l) = 1%nat <->
  exists i x, l !! i = Some x /\ P x /\
              forall j y, l !! j = Some y -> P y -> j = i.
Proof.
  induction l as [| a l IH].
  - split; [done |]. intros (i & x & Hi & _). done.
  - rewrite filter_cons. destruct (decide (P a)) as [Ha | Ha].
    + split.
      * simpl. intros Hlen. exists 0%nat, a.
        split; [done |]. split; [done |].
        intros [| j] y Hj Hy; [done |]. simpl in Hj.
        assert (Hnil : filter P l = []).
        { destruct (filter P l); [done | simpl in Hlen; lia]. }
        exfalso. eapply (filter_nil_not_elem_of P l y Hnil Hy).
        eapply list_elem_of_lookup_2, Hj.
      * intros (i & x & Hi & Hx & Huniq).
        assert (Hi0 : 0%nat = i) by (apply (Huniq 0%nat a); done).
        subst i. simpl. f_equal.
        destruct (filter P l) as [| y f] eqn:E; [done |].
        assert (Hy : y ∈ filter P l) by (rewrite E; left).
        apply list_elem_of_filter in Hy as [HPy Hyl].
        apply list_elem_of_lookup_1 in Hyl as [j Hj].
        specialize (Huniq (S j) y Hj HPy). done.
    + rewrite IH. split.
      * intros (i & x & Hi & Hx & Huniq). exists (S i), x.
        split; [done |]. split; [done |].
        intros [| j] y Hj Hy; simpl in Hj.
        -- inversion Hj; subst. done.
        -- f_equal. by apply (Huniq j y).
      * intros (i & x & Hi & Hx & Huniq).
        destruct i as [| i]; simpl in Hi.
        -- inversion Hi; subst. done.
        -- exists i, x. split; [done |]. split; [done |].
           intros j y Hj Hy. specialize (Huniq (S j) y Hj Hy). lia.
Qed.

Lemma pricedFor_true (skuId : string) (c : VendorMatrixCell) :
  pricedFor skuId c = true <-> sku_id c = skuId /\ has_pricing c = true.
Proof.
  unfold pricedFor. rewrite andb_true_iff, bool_decide_eq_true. done.
Qed.

Lemma isSingleSource_length (data : VendorMatrixData) (skuId : string) :
  isSingleSource data skuId = true <->
  length (filter (fun c => pricedFor skuId c = true) (flat (matrix data)))
  = 1%nat.
Proof.
  unfold isSingleSource, array_length.
  rewrite bool_decide_eq_true. lia.
Qed.

(** C4.  [isSingleSource] holds for a SKU iff exactly one cell of the
    flattened matrix is a priced cell of that SKU; and once it holds,
    a matrix that has one more priced cell for the SKU makes it false. *)
Theorem isSingleSource_spec (data : VendorMatrixData) (skuId : string) :
  (isSingleSource data skuId = true <->
   exactly_one_priced (flat (matrix data)) skuId) /\
  (forall (c : VendorMatrixCell) (matrix' : list (list VendorMatrixCell)),
     isSingleSource data skuId = true ->
     sku_id c = skuId -> has_pricing c = true ->
     flat matrix' ≡ₚ c :: flat (matrix data) ->
     isSingleSource {| vendors := vendors data; matrix := matrix' |} skuId
     = false).
Proof.
  split.
  - rewrite isSingleSource_length, filter_length_one.
    unfold exactly_one_priced. split.
    + intros (i & c & Hi & Hc & Huniq). exists i, c.
      apply pricedFor_true in Hc as [Hs Hp].
      repeat split; try done.
      intros j c' Hj Hs' Hp'. apply (Huniq j c' Hj).
      by apply pricedFor_true.
    + intros (i & c & Hi & Hs & Hp & Huniq). exists i, c.
      split; [done |]. split; [by apply pricedFor_true |].
      intros j c' Hj Hc'. apply pricedFor_true in Hc' as [Hs' Hp'].
      by apply (Huniq j c').
  - intros c matrix' Hone Hs Hp Hperm.
    apply isSingleSource_length in Hone.
    apply not_true_is_false. intros Htwo.
    apply isSingleSource_length in Htwo. simpl in Htwo.
    rewrite Hperm, filter_cons_True in Htwo by (by apply pricedFor_true).
    simpl in Htwo. lia.
Qed.

Lemma isSingleSource_spec_witness :
  isSingleSource sample_data "S1" = true /\
  exactly_one_priced (flat sample_matrix) "S1" /\
  isSingleSource
    {| vendors := vendors sample_data;
       matrix := sample_matrix ++ [[cell "B" "S1" true]] |} "S1" = false.
Proof.
  assert (Hone : isSingleSource sample_data "S1" = true)
    by (vm_compute; reflexivity).
  destruct (isSingleSource_spec sample_data "S1") as [Hiff Hadd].
  split; [exact Hone |]. split; [exact (proj1 Hiff Hone) |].
  apply (Hadd (cell "B" "S1" true)); [exact Hone | reflexivity | reflexivity |].
  unfold flat. rewrite concat_app.
  change (concat [[cell "B" "S1" true]]) with [cell "B" "S1" true].
  symmetry. apply Permutation_cons_append.
Defined.

(** The comparator's count is the number of cells of the flattened
    matrix that carry the vendor's id and have pricing. *)
Lemma coverageCount_priced_cells (data : VendorMatrixData) (v : Vendor) :
  coverageCount data v
  = Z.of_nat (length (filter (fun c => vendor_id c = v_vendor_id v
                                       /\ has_pricing c = true)
                             (flat (matrix data)))).
Proof.
  unfold coverageCount, array_length. do 2 f_equal.
  apply list_filter_iff. intros c.
  rewrite andb_true_iff, bool_decide_eq_true. tauto.
Qed.

Lemma remove_dups_NoDup {A : Type} `{EqDecision A} (l : list A) :
  NoDup l -> remove_dups l = l.
Proof.
  induction 1 as [| x l Hx Hnd IH]; simpl; [done |].
  destruct (decide_rel elem_of x l); [done | by rewrite IH].
Qed.

(** When no vendor/SKU pair has two cells, the priced cells of a vendor
    are for pairwise different SKUs. *)
Lemma priced_skus_NoDup (cells : list VendorMatrixCell) (vendorId : string) :
  NoDup (map (fun c => (vendor_id c, sku_id c)) cells) ->
  NoDup (map sku_id
           (filter (fun c => vendor_id c = vendorId /\ has_pricing c = true)
                   cells)).
Proof.
  induction cells as [| c cells IH]; simpl; [constructor |].
  intros Hnd. apply NoDup_cons in Hnd as [Hc Hnd].
  rewrite filter_cons. destruct (decide _) as [[Hv Hp] | _]; [| by apply IH].
  simpl. apply NoDup_cons. split; [| by apply IH].
  intros Hin. apply list_elem_of_fmap in Hin as (c' & Hs & Hc').
  apply list_elem_of_filter in Hc' as [[Hv' _] Hc'].
  apply Hc. apply list_elem_of_fmap. exists c'.
  split; [| exact Hc']. by rewrite Hs, Hv, Hv'.
Qed.

(** C8 (as amended).  Sorting by coverage returns the same vendors in
    descending order of their number of matrix cells with [has_pricing]
    true: a vendor with strictly more such cells stands before one with
    fewer, and vendors with the same number keep their input order.  The
    number of priced cells is the number of SKUs the vendor prices when no
    vendor/SKU pair has more than one cell; under that condition a vendor
    that prices strictly fewer SKUs stands after one that prices more. *)
Theorem sortedVendors_by_coverage
    (localeCompare : string -> string -> Z) (data : VendorMatrixData) :
  let priced := fun v : Vendor =>
    length (filter (fun c => vendor_id c = v_vendor_id v
                             /\ has_pricing c = true)
                   (flat (matrix data))) in
  let skusPriced := fun v : Vendor =>
    length (remove_dups
              (map sku_id
                 (filter (fun c => vendor_id c = v_vendor_id v
                                   /\ has_pricing c = true)
                         (flat (matrix data))))) in
  let sorted := sortedVendors localeCompare data by_coverage in
  sorted ≡ₚ vendors data /\
  (forall i j a b,
     sorted !! i = Some a -> sorted !! j = Some b -> (i < j)%nat ->
     (priced b <= priced a)%nat) /\
  (forall a b,
     a ∈ vendors data -> b ∈ vendors data ->
     (priced a < priced b)%nat ->
     placed_before b a sorted) /\
  (forall n : nat,
     filter (fun v => priced v = n) sorted
     = filter (fun v => priced v = n) (vendors data)) /\
  (NoDup (map (fun c => (vendor_id c, sku_id c)) (flat (matrix data))) ->
   (forall v, skusPriced v = priced v) /\
   (forall a b,
      a ∈ vendors data -> b ∈ vendors data ->
      (skusPriced a < skusPriced b)%nat ->
      placed_before b a sorted)).
Proof.
  intros priced skusPriced sorted. subst sorted. unfold sortedVendors.
  assert (Hkey : forall v, coverageCount data v = Z.of_nat (priced v))
    by (intros v; apply coverageCount_priced_cells).
  assert (Hperm : Array_sort (compareCoverage data) (vendors data)
                  ≡ₚ vendors data) by apply Array_sort_perm.
  assert (Hdesc : forall i j a b,
     Array_sort (compareCoverage data) (vendors data) !! i = Some a ->
     Array_sort (compareCoverage data) (vendors data) !! j = Some b ->
     (i < j)%nat -> (priced b <= priced a)%nat).
  { intros i j a b Hi Hj Hlt.
    assert (Hz : coverageCount data b <= coverageCount data a).
    { eapply (StronglySorted_lookup
                (fun a b => coverageCount data b <= coverageCount data a));
        [| exact Hi | exact Hj | exact Hlt].
      apply Array_sort_sorted. reflexivity. }
    rewrite !Hkey in Hz. lia. }
  assert (Hbefore : forall a b,
     a ∈ vendors data -> b ∈ vendors data -> (priced a < priced b)%nat ->
     placed_before b a (Array_sort (compareCoverage data) (vendors data))).
  { intros a b Ha Hb Hlt.
    rewrite <- Hperm in Ha, Hb.
    apply list_elem_of_lookup_1 in Ha as [j Hj].
    apply list_elem_of_lookup_1 in Hb as [i Hi].
    exists i, j. split; [| done].
    destruct (Nat.lt_trichotomy i j) as [Hij | [Hij | Hij]]; [done | |].
    - subst j. rewrite Hi in Hj. inversion Hj; subst. lia.
    - specialize (Hdesc j i a b Hj Hi Hij). lia. }
  split; [exact Hperm |]. split; [exact Hdesc |].
  split; [exact Hbefore |]. split.
  - intros n.
    rewrite (list_filter_iff (fun v => priced v = n)
               (fun v => coverageCount data v = Z.of_nat n)
               (Array_sort (compareCoverage data) (vendors data)))
      by (intros v; rewrite Hkey; lia).
    rewrite (list_filter_iff (fun v => priced v = n)
               (fun v => coverageCount data v = Z.of_nat n) (vendors data))
      by (intros v; rewrite Hkey; lia).
    apply Array_sort_stable. reflexivity.
  - intros Hnd.
    assert (Hsku : forall v, skusPriced v = priced v).
    { intros v. unfold skusPriced, priced.
      rewrite remove_dups_NoDup by (by apply priced_skus_NoDup).
      by rewrite length_map. }
    split; [exact Hsku |].
    intros a b Ha Hb Hlt. rewrite !Hsku in Hlt. by apply Hbefore.
Qed.

Lemma sortedVendors_by_coverage_witness :
  vendorA ∈ vendors sample_data /\ vendorB ∈ vendors sample_data /\
  (length (filter (fun c => vendor_id c = "A"%string /\ has_pricing c = true)
             (flat (matrix sample_data))) = 3)%nat /\
  (length (filter (fun c => vendor_id c = "B"%string /\ has_pricing c = true)
             (flat (matrix sample_data))) = 7)%nat /\
  placed_before vendorB vendorA
    (sortedVendors (fun _ _ => 0) sample_data by_coverage).
Proof.
  assert (Ha : vendorA ∈ vendors sample_data) by (left).
  assert (Hb : vendorB ∈ vendors sample_data) by (right; left).
  split; [exact Ha |]. split; [exact Hb |].
  split; [vm_compute; reflexivity |]. split; [vm_compute; reflexivity |].
  destruct (sortedVendors_by_coverage (fun _ _ => 0) sample_data)
    as (_ & _ & Hbefore & _).
  apply (Hbefore vendorA vendorB Ha Hb). vm_compute. lia.
Defined.

(** C8 (the claim as written fails).  With repeated cells a vendor can
    price fewer SKUs and still have more priced cells: in [dup_data]
    vendor A prices one SKU in three cells and vendor B two SKUs in two
    cells, and A stays before B. *)
Lemma sortedVendors_by_coverage_counterexample :
  ~ (forall (localeCompare : string -> string -> Z)
            (data : VendorMatrixData) (a b : Vendor),
       a ∈ vendors data -> b ∈ vendors data ->
       (length (remove_dups
                  (map sku_id
                     (filter (fun c => vendor_id c = v_vendor_id a
                                       /\ has_pricing c = true)
                             (flat (matrix data)))))
        < length (remove_dups
                    (map sku_id
                       (filter (fun c => vendor_id c = v_vendor_id b
                                         /\ has_pricing c = true)
                               (flat (matrix data))))))%nat ->
       placed_before b a (sortedVendors localeCompare data by_coverage)).
Proof.
  intros Hclaim.
  destruct (Hclaim (fun _ _ => 0) dup_data vendorA vendorB)
    as (i & j & Hlt & Hi & Hj).
  - left.
  - right; left.
  - vm_compute. lia.
  - assert (Hsorted : sortedVendors (fun _ _ => 0) dup_data by_coverage
                      = [vendorA; vendorB]) by (vm_compute; reflexivity).
    rewrite Hsorted in Hi, Hj.
    destruct i as [| [| i]], j as [| [| j]]; simpl in Hi, Hj;
      try discriminate; lia.
Qed.

(** The specification's example: A prices 3 SKUs, B prices 7, and A comes
    first in the input; B is first after sorting. *)
Example sortedVendors_sample (localeCompare : string -> string -> Z) :
  coverageCount sample_data vendorA = 3 /\
  coverageCount sample_data vendorB = 7 /\
  sortedVendors localeCompare sample_data by_coverage = [vendorB; vendorA].
Proof. repeat split; vm_compute; reflexivity. Qed.

End VendorMatrixSpec.

(** ** SKUSearch *)
Module SKUSearchSpec.
Import SKUSearch.

Lemma or_else_undefined (v : Value) :
  or_else v Undefined = if truthy v then v else Undefined.
Proof. reflexivity. Qed.

Lemma get_insert (fs : gmap string Value) (key : string) (v : Value) :
  get (<[ key := v ]> fs) key = v.
Proof. unfold get. by rewrite lookup_insert_eq. Qed.

Lemma get_insert_other (fs : gmap string Value) (key key' : string)
    (v : Value) :
  key <> key' -> get (<[ key := v ]> fs) key' = get fs key'.
Proof. intros Hne. unfold get. by rewrite lookup_insert_ne. Qed.

(** C10.  [handleFilterChange] dispatches exactly one search, with the new
    filters; in them the changed field is the given value when that value
    is truthy and [undefined] when it is falsy, and the other fields are
    as before.  So the dispatched field is never [false], never 0 and never
    the empty string; unchecking "Active SKUs only" dispatches [is_active]
    as [undefined], and a price bound of 0 is dispatched as [undefined]. *)
Theorem handleFilterChange_drops_falsy
    (key : string) (value : Value) (st : State) :
  let st' := handleFilterChange key value st in
  searches st' = searches st ++ [filters st'] /\
  (truthy value = false -> get (filters st') key = Undefined) /\
  (truthy value = true -> get (filters st') key = value) /\
  (forall key', key <> key' ->
     get (filters st') key' = get (filters st) key') /\
  get (filters st') key <> Bool false /\
  (forall q, get (filters st') key = Num q -> ~ (q == 0)%Q) /\
  get (filters st') key <> Str "" /\
  get (filters (activeOnlyOnChange false st)) "is_active" = Undefined /\
  (forall q, (q == 0)%Q ->
     get (filters (priceOnChange key (Some q) st)) key = Undefined).
Proof.
  intros st'. subst st'. unfold handleFilterChange. simpl.
  rewrite get_insert, or_else_undefined.
  split; [reflexivity |].
  split; [by intros -> |].
  split; [by intros -> |].
  split; [intros key' Hne; by apply get_insert_other |].
  split.
  { destruct (truthy value) eqn:E; [| done].
    intros ->. simpl in E. done. }
  split.
  { intros q. destruct (truthy value) eqn:E; [| done].
    intros -> Hq. simpl in E. apply Qeq_bool_iff in Hq.
    rewrite Hq in E. done. }
  split.
  { destruct (truthy value) eqn:E; [| done].
    intros ->. simpl in E. done. }
  split.
  { unfold activeOnlyOnChange, handleFilterChange. simpl.
    by rewrite get_insert. }
  intros q Hq. unfold priceOnChange, handleFilterChange. simpl.
  rewrite get_insert, or_else_undefined. simpl.
  apply Qeq_bool_iff in Hq. by rewrite Hq.
Qed.

Lemma handleFilterChange_drops_falsy_witness :
  truthy (Bool false) = false /\
  get (filters (handleFilterChange "is_active" (Bool false)
                  {| filters := ∅; searches := [] |}))
      "is_active" = Undefined /\
  (0 == 0)%Q /\
  get (filters (priceOnChange "min_price" (Some 0%Q)
                  {| filters := ∅; searches := [] |}))
      "min_price" = Undefined.
Proof.
  destruct (handleFilterChange_drops_falsy "is_active" (Bool false)
              {| filters := ∅; searches := [] |})
    as (_ & Hfalsy & _).
  destruct (handleFilterChange_drops_falsy "min_price" Undefined
              {| filters := ∅; searches := [] |})
    as (_ & _ & _ & _ & _ & _ & _ & _ & Hprice).
  split; [reflexivity |]. split; [apply Hfalsy; reflexivity |].
  split; [reflexivity |]. apply Hprice. reflexivity.
Defined.

End SKUSearchSpec.

(** ** PromoCalibrationSlider *)
Module PromoCalibrationSliderSpec.
Import PromoCalibrationSlider.

#[local] Arguments step : simpl never.
#[local] Arguments advance : simpl never.
#[local] Arguments callInferenceAPI : simpl never.
#[local] Arguments callInferenceAPI_resume : simpl never.

Section Component.
Variable props : Props.

(** *** What each piece of code leaves alone *)

Lemma callInferenceAPI_fields (value : Q) (st : State) :
  let st' := callInferenceAPI props value st in
  sliderValue (view st') = sliderValue (view st) /\
  valueChanges st' = valueChanges st /\
  pendingCall st' = pendingCall st /\
  clock st' = clock st /\
  controllersMade st' = S (controllersMade st) /\
  abortControllerRef st' = Some (controllersMade st) /\
  requests st'
  = requests st ++ [inferenceRequest props (clock st) (controllersMade st) value].
Proof.
  unfold callInferenceAPI.
  destruct (abortControllerRef st); simpl; repeat split; reflexivity.
Qed.

Lemma callInferenceAPI_resume_fields (o : Outcome) (st : State) :
  let st' := callInferenceAPI_resume o st in
  sliderValue (view st') = sliderValue (view st) /\
  valueChanges st' = valueChanges st /\
  pendingCall st' = pendingCall st /\
  clock st' = clock st /\
  controllersMade st' = controllersMade st /\
  abortControllerRef st' = abortControllerRef st /\
  requests st' = requests st /\
  aborted st' = aborted st /\
  inFlight st' = inFlight st /\
  isLoading (view st') = false.
Proof.
  unfold callInferenceAPI_resume.
  destruct o as [data | | errorName]; simpl; try (repeat split; reflexivity).
  destruct (bool_decide (errorName = "AbortError"%string)); simpl;
    repeat split; reflexivity.
Qed.

Lemma advance_fields (t : nat) (st : State) :
  let st' := advance props t st in
  sliderValue (view st') = sliderValue (view st) /\
  valueChanges st' = valueChanges st /\
  clock st' = t.
Proof.
  unfold advance. destruct (pendingCall st) as [[due value] |]; simpl;
    [| repeat split; reflexivity].
  destruct (due <=? t)%nat; simpl; [| repeat split; reflexivity].
  destruct (callInferenceAPI_fields value
              (with_pendingCall None (with_clock due st)))
    as (Hs & Hv & _).
  simpl in Hs, Hv. repeat split; [exact Hs | exact Hv].
Qed.

(** *** Running a trace *)

Lemma run_app (st : State) (tr1 tr2 : list (nat * Event)) :
  run props st (tr1 ++ tr2)
  = match run props st tr1 with
    | Some st1 => run props st1 tr2
    | None => None
    end.
Proof.
  revert st. induction tr1 as [| e tr1 IH]; intros st; simpl; [done |].
  destruct (step props st e); [apply IH | done].
Qed.

Lemma drags_app (tr1 tr2 : list (nat * Event)) :
  drags (tr1 ++ tr2) = drags tr1 ++ drags tr2.
Proof.
  induction tr1 as [| [t [v | c o]] tr1 IH]; simpl; [done | | done].
  by rewrite IH.
Qed.

(** Each event's effect on the slider value and on the [onValueChange]
    calls: a drag sets the one and appends to the other, a settlement
    touches neither. *)
Lemma step_slider (st st' : State) (t : nat) (ev : Event) :
  step props st (t, ev) = Some st' ->
  match ev with
  | SliderChange v =>
      sliderValue (view st') = v /\
      valueChanges st' = valueChanges st ++ [v]
  | FetchSettled _ _ =>
      sliderValue (view st') = sliderValue (view st) /\
      valueChanges st' = valueChanges st
  end.
Proof.
  unfold step. destruct (t <? clock st)%nat; [done |].
  destruct (advance_fields t st) as (Hs & Hv & _).
  destruct ev as [v | c o].
  - intros [= <-]. simpl. by rewrite Hv.
  - destruct (canSettle c o (advance props t st)); [| done].
    intros [= <-].
    destruct (callInferenceAPI_resume_fields o
                (settled c (advance props t st))) as (Hs' & Hv' & _).
    rewrite Hs', Hv'. simpl. by rewrite Hs, Hv.
Qed.

Lemma run_valueChanges (tr : list (nat * Event)) (st st' : State) :
  run props st tr = Some st' ->
  valueChanges st' = valueChanges st ++ (drags tr).*2.
Proof.
  revert st. induction tr as [| [t ev] tr IH]; intros st; simpl.
  - intros [= <-]. by rewrite app_nil_r.
  - destruct (step props st (t, ev)) as [st1 |] eqn:E; [| done].
    intros Hrun. apply IH in Hrun. apply step_slider in E.
    destruct ev as [v | c o]; destruct E as [_ Hv]; rewrite Hrun, Hv.
    + simpl. by rewrite <- app_assoc.
    + done.
Qed.

Lemma run_sliderValue (tr : list (nat * Event)) (st st' : State) :
  run props st tr = Some st' ->
  sliderValue (view st')
  = match last (drags tr) with
    | Some (_, v) => v
    | None => sliderValue (view st)
    end.
Proof.
  revert st. induction tr as [| [t ev] tr IH]; intros st; simpl.
  - by intros [= <-].
  - destruct (step props st (t, ev)) as [st1 |] eqn:E; [| done].
    intros Hrun. apply IH in Hrun. apply step_slider in E.
    destruct ev as [v | c o]; destruct E as [Hs _]; rewrite Hrun.
    + rewrite last_cons. destruct (last (drags tr)) as [[? ?] |]; done.
    + by rewrite Hs.
Qed.

(** *** The debounce timer during a burst *)

Lemma advance_idle (t : nat) (st : State) :
  pendingCall st = None -> advance props t st = with_clock t st.
Proof. unfold advance. by intros ->. Qed.

Lemma advance_not_due (t due : nat) (v : Q) (st : State) :
  pendingCall st = Some (due, v) -> (t < due)%nat ->
  advance props t st = with_clock t st.
Proof.
  unfold advance. intros -> Hlt.
  destruct (Nat.leb_spec due t); [lia | done].
Qed.

Lemma advance_due (t due : nat) (v : Q) (st : State) :
  pendingCall st = Some (due, v) -> (due <= t)%nat ->
  advance props t st
  = with_clock t
      (callInferenceAPI props v (with_pendingCall None (with_clock due st))).
Proof.
  unfold advance. intros -> Hle.
  destruct (Nat.leb_spec due t); [done | lia].
Qed.

Lemma burstPhase_ext (R0 : list Request) (c0 : nat)
    (prev : option (nat * Q)) (st st' : State) :
  pendingCall st' = pendingCall st -> requests st' = requests st ->
  controllersMade st' = controllersMade st -> clock st' = clock st ->
  burstPhase props R0 c0 prev st -> burstPhase props R0 c0 prev st'.
Proof.
  intros Hp Hr Hc Hk. unfold burstPhase.
  destruct prev as [[t0 v0] |]; rewrite Hp, Hr, Hc, ?Hk; done.
Qed.

Lemma advance_burstPhase (R0 : list Request) (c0 : nat)
    (prev : option (nat * Q)) (t : nat) (st : State) :
  burstPhase props R0 c0 prev st -> (clock st <= t)%nat ->
  burstPhase props R0 c0 prev (advance props t st) /\
  clock (advance props t st) = t.
Proof.
  intros Hph Hle. split; [| apply advance_fields].
  destruct prev as [[t0 v0] |]; simpl in Hph.
  - destruct Hph as [(Hp & Hr & Hc & Hk) | (Hp & Hr & Hk)].
    + destruct (Nat.lt_ge_cases t (t0 + DEBOUNCE_MS)) as [Hlt | Hge].
      * rewrite (advance_not_due _ _ _ _ Hp Hlt). left. simpl. done.
      * rewrite (advance_due _ _ _ _ Hp Hge). right.
        destruct (callInferenceAPI_fields v0
                    (with_pendingCall None
                       (with_clock (t0 + DEBOUNCE_MS) st)))
          as (_ & _ & Hp' & _ & _ & _ & Hr').
        cbn. rewrite Hp', Hr'. cbn. rewrite Hr, Hc. done.
    + rewrite (advance_idle _ _ Hp). right. simpl.
      split; [done |]. split; [done | lia].
  - destruct Hph as (Hp & Hr & Hc).
    rewrite (advance_idle _ _ Hp). simpl. done.
Qed.

Lemma step_burstPhase (R0 : list Request) (c0 : nat)
    (prev : option (nat * Q)) (st st' : State) (t : nat) (ev : Event) :
  burstPhase props R0 c0 prev st ->
  step props st (t, ev) = Some st' ->
  match ev, prev with
  | SliderChange _, Some (t0, _) => (t < t0 + DEBOUNCE_MS)%nat
  | _, _ => True
  end ->
  burstPhase props R0 c0
    (match ev with
     | SliderChange v => Some (t, v)
     | FetchSettled _ _ => prev
     end) st'.
Proof.
  intros Hph Hstep Hgap. unfold step in Hstep.
  destruct (Nat.ltb_spec t (clock st)) as [| Hle]; [done |].
  destruct (advance_burstPhase R0 c0 prev t st Hph Hle) as [Hph1 Hk1].
  destruct ev as [v | c o].
  - injection Hstep as <-. left. simpl. rewrite Hk1.
    split; [done |].
    destruct prev as [[t0 v0] |]; simpl in Hph1.
    + destruct Hph1 as [(_ & Hr & Hc & _) | (_ & _ & Hk)]; [| lia].
      repeat split; [done | done | unfold DEBOUNCE_MS; lia].
    + destruct Hph1 as (_ & Hr & Hc).
      repeat split; [done | done | unfold DEBOUNCE_MS; lia].
  - destruct (canSettle c o (advance props t st)); [| done].
    injection Hstep as <-.
    destruct (callInferenceAPI_resume_fields o
                (settled c (advance props t st)))
      as (_ & _ & Hp & Hk & Hc & _ & Hr & _).
    eapply burstPhase_ext; [exact Hp | exact Hr | exact Hc | exact Hk |].
    eapply burstPhase_ext; [| | | | exact Hph1]; reflexivity.
Qed.

Lemma latestDrag_cons (prev : option (nat * Q)) (d : nat * Q)
    (ds : list (nat * Q)) :
  latestDrag prev (d :: ds) = latestDrag (Some d) ds.
Proof.
  unfold latestDrag. rewrite last_cons. by destruct (last ds).
Qed.

Lemma run_burstPhase (R0 : list Request) (c0 : nat)
    (tr : list (nat * Event)) (prev : option (nat * Q)) (st st' : State) :
  burstPhase props R0 c0 prev st ->
  withinQuietPeriod prev (drags tr) = true ->
  run props st tr = Some st' ->
  burstPhase props R0 c0 (latestDrag prev (drags tr)) st'.
Proof.
  revert prev st. induction tr as [| [t ev] tr IH]; intros prev st Hph Hq.
  - simpl. intros [= <-]. unfold latestDrag. simpl. done.
  - simpl. destruct (step props st (t, ev)) as [st1 |] eqn:E; [| done].
    intros Hrun. destruct ev as [v | c o]; simpl in Hq |- *.
    + apply andb_true_iff in Hq as [Hgap Hq].
      rewrite latestDrag_cons.
      apply (IH (Some (t, v)) st1); [| exact Hq | exact Hrun].
      apply (step_burstPhase R0 c0 prev st st1 t (SliderChange v) Hph E).
      destruct prev as [[t0 v0] |]; [| done].
      by apply Nat.ltb_lt in Hgap.
    + apply (IH prev st1); [| exact Hq | exact Hrun].
      apply (step_burstPhase R0 c0 prev st st1 t (FetchSettled c o) Hph E).
      done.
Qed.

(** C3.  Start with no debounced call pending and let the slider be dragged
    any number of times, each drag less than 300ms after the one before,
    with any fetch settlements in between.  Then at any time from 300ms
    after the last drag on, exactly one request has been added to the
    request log; its time of issue is the time of the last drag plus 300,
    its [promo_value] is that drag's value, and its other body fields are
    the props and the fixed location code.  The slider shows the last
    dragged value,
    [onValueChange] has been called once per drag with the dragged values
    in order, and right after each single drag the slider shows that
    drag's value. *)
Theorem debounce_issues_one_request
    (st0 st1 : State) (tr : list (nat * Event))
    (ds : list (nat * Q)) (tn : nat) (vn : Q) (T : nat) :
  pendingCall st0 = None ->
  run props st0 tr = Some st1 ->
  drags tr = ds ++ [(tn, vn)] ->
  withinQuietPeriod None (drags tr) = true ->
  (tn + 300 <= T)%nat -> (clock st1 <= T)%nat ->
  let st2 := advance props T st1 in
  (exists r : Request,
     requests st2 = requests st0 ++ [r] /\
     req_promo_value r = vn /\
     req_at r = (tn + 300)%nat /\
     req_signal r = controllersMade st0 /\
     req_sku_id r = skuId props /\
     req_current_price r = currentPrice props /\
     req_promo_type r = promoType props /\
     req_location_code r = "35242"%string) /\
  sliderValue (view st2) = vn /\
  valueChanges st2 = valueChanges st0 ++ (drags tr).*2 /\
  (forall pre t v post,
     tr = pre ++ (t, SliderChange v) :: post ->
     exists s,
       run props st0 (pre ++ [(t, SliderChange v)]) = Some s /\
       sliderValue (view s) = v /\
       valueChanges s = valueChanges st0 ++ (drags pre).*2 ++ [v]).
Proof.
  intros Hidle Hrun Hds Hq HT Hclock st2. subst st2.
  assert (Hph0 : burstPhase props (requests st0) (controllersMade st0)
                   None st0) by (simpl; done).
  pose proof (run_burstPhase _ _ tr None st0 st1 Hph0 Hq Hrun) as Hph1.
  assert (Hlast : latestDrag None (drags tr) = Some (tn, vn)).
  { unfold latestDrag. by rewrite Hds, last_snoc. }
  rewrite Hlast in Hph1.
  destruct (advance_burstPhase _ _ _ T st1 Hph1 Hclock) as [Hph2 Hk2].
  destruct (advance_fields T st1) as (Hs & Hv & _).
  split; [| split; [| split]].
  - simpl in Hph2. unfold DEBOUNCE_MS in Hph2.
    exists (inferenceRequest props (tn + 300)%nat (controllersMade st0) vn).
    split; [| repeat split; reflexivity].
    destruct Hph2 as [(_ & _ & _ & Hk) | (_ & Hr & _)]; [lia | exact Hr].
  - rewrite Hs, (run_sliderValue tr st0 st1 Hrun), Hds, last_snoc.
    done.
  - rewrite Hv. by apply run_valueChanges.
  - intros pre t v post ->.
    rewrite run_app in Hrun.
    destruct (run props st0 pre) as [s0 |] eqn:Epre; [| done].
    simpl in Hrun.
    destruct (step props s0 (t, SliderChange v)) as [s |] eqn:Estep;
      [| done].
    exists s. rewrite run_app, Epre. simpl. rewrite Estep.
    split; [done |].
    apply step_slider in Estep as [Hsv Hvc].
    split; [exact Hsv |].
    rewrite Hvc, (run_valueChanges pre st0 s0 Epre).
    by rewrite <- app_assoc.
Qed.

(** C9.  When the fetch of a controller that has not been aborted settles
    with a successful response, the confidence interval, the AI
    recommended value, the projected lift, the calibration score and the
    latency become the values of the response, and the slider value stays
    what it was (the loading flag, which is not part of the calibration
    data, is cleared). *)
Theorem success_replaces_server_fields
    (st : State) (t c : nat) (data : PromoSimulationResponse) :
  c ∈ inFlight st -> c ∉ aborted st ->
  (clock st <= t)%nat -> timerQuiet t st ->
  exists st',
    step props st (t, FetchSettled c (Success data)) = Some st' /\
    view st'
    = {| sliderValue := sliderValue (view st);
         aiRecommendedValue := ai_recommended_value data;
         confidenceInterval := confidence_interval data;
         projectedLift := projected_lift data;
         calibrationScore := calibration_score data;
         isLoading := false;
         latencyMs := latency_ms data |}.
Proof.
  intros Hin Hlive Hle Hquiet. unfold step.
  destruct (Nat.ltb_spec t (clock st)) as [| _]; [lia |].
  assert (Hadv : advance props t st = with_clock t st).
  { unfold timerQuiet in Hquiet.
    destruct (pendingCall st) as [[due v] |] eqn:Hp.
    - by apply (advance_not_due t due v).
    - by apply advance_idle. }
  rewrite Hadv. unfold canSettle. simpl.
  rewrite (bool_decide_eq_true_2 _ Hin), (bool_decide_eq_false_2 _ Hlive).
  simpl. eexists. split; reflexivity.
Qed.

(** *** The cancellation discipline *)

Lemma oneLive_mount : oneLive (mount props).
Proof.
  unfold oneLive, mount. simpl.
  split; [intros c Hin; by apply elem_of_empty in Hin |].
  split; [intros c Hin; by apply elem_of_empty in Hin |].
  split; [intros c Hin; by apply elem_of_empty in Hin |].
  intros c. done.
Qed.

Lemma oneLive_callInferenceAPI (value : Q) (st : State) :
  oneLive st -> oneLive (callInferenceAPI props value st).
Proof.
  intros (Hlive & Hab & Hfl & Href). unfold oneLive, callInferenceAPI.
  destruct (abortControllerRef st) as [p |] eqn:Ep; simpl.
  - specialize (Href p eq_refl).
    repeat split; intros c.
    + rewrite elem_of_union, elem_of_singleton.
      rewrite not_elem_of_union, not_elem_of_singleton.
      intros [-> | Hin] [Hne Hna]; [done |].
      specialize (Hlive c Hin Hna). congruence.
    + rewrite elem_of_union, elem_of_singleton.
      intros [-> | Hin]; [lia |]. specialize (Hab c Hin). lia.
    + rewrite elem_of_union, elem_of_singleton.
      intros [-> | Hin]; [lia |]. specialize (Hfl c Hin). lia.
    + by intros [= <-].
  - repeat split; intros c.
    + rewrite elem_of_union, elem_of_singleton.
      intros [-> | Hin] Hna; [done |].
      specialize (Hlive c Hin Hna). congruence.
    + intros Hin. specialize (Hab c Hin). lia.
    + rewrite elem_of_union, elem_of_singleton.
      intros [-> | Hin]; [lia |]. specialize (Hfl c Hin). lia.
    + by intros [= <-].
Qed.

Lemma oneLive_ext (st st' : State) :
  abortControllerRef st' = abortControllerRef st ->
  controllersMade st' = controllersMade st ->
  aborted st' = aborted st -> inFlight st' ⊆ inFlight st ->
  oneLive st -> oneLive st'.
Proof.
  intros Hr Hc Ha Hf (Hlive & Hab & Hfl & Href). unfold oneLive.
  rewrite Hr, Hc, Ha. repeat split; intros c; auto.
Qed.

Lemma oneLive_advance (t : nat) (st : State) :
  oneLive st -> oneLive (advance props t st).
Proof.
  intros Hinv. unfold advance.
  destruct (pendingCall st) as [[due v] |];
    [destruct (due <=? t)%nat |].
  - eapply oneLive_ext;
      [| | | | apply (oneLive_callInferenceAPI v), (oneLive_ext st)];
      try reflexivity; try done.
  - by apply (oneLive_ext st).
  - by apply (oneLive_ext st).
Qed.

Lemma oneLive_step (st st' : State) (e : nat * Event) :
  oneLive st -> step props st e = Some st' -> oneLive st'.
Proof.
  intros Hinv. destruct e as [t ev]. unfold step.
  destruct (t <? clock st)%nat; [done |].
  pose proof (oneLive_advance t st Hinv) as Hadv.
  destruct ev as [v | c o].
  - intros [= <-]. by apply (oneLive_ext (advance props t st)).
  - destruct (canSettle c o (advance props t st)); [| done].
    intros [= <-].
    destruct (callInferenceAPI_resume_fields o
                (settled c (advance props t st)))
      as (_ & _ & _ & _ & Hc & Hr & _ & Ha & Hf & _).
    eapply oneLive_ext; [exact Hr | exact Hc | exact Ha | by rewrite Hf |].
    apply (oneLive_ext (advance props t st)); try done.
    simpl. intros x Hx. by apply elem_of_difference in Hx as [Hx _].
Qed.

Lemma oneLive_reachable (st : State) : reachable props st -> oneLive st.
Proof.
  intros [tr Hrun]. revert Hrun. generalize oneLive_mount.
  generalize (mount props). induction tr as [| e tr IH]; intros s Hinv.
  - by intros [= <-].
  - simpl. destruct (step props s e) as [s1 |] eqn:E; [| done].
    apply IH. by apply (oneLive_step s s1 e).
Qed.

(** A response is applied only for the controller the ref holds, which is
    the latest one made: results of superseded requests are never
    applied. *)
Lemma applied_result_is_latest
    (st st' : State) (t c : nat) (data : PromoSimulationResponse) :
  reachable props st ->
  step props st (t, FetchSettled c (Success data)) = Some st' ->
  abortControllerRef st' = Some c /\ controllersMade st' = S c.
Proof.
  intros Hreach Hstep.
  pose proof (oneLive_advance t st (oneLive_reachable st Hreach))
    as (Hlive & _ & _ & Href).
  unfold step in Hstep. destruct (t <? clock st)%nat; [done |].
  destruct (canSettle c (Success data) (advance props t st)) eqn:Hcan;
    [| done].
  injection Hstep as <-. unfold canSettle in Hcan.
  apply andb_true_iff in Hcan as [Hin Hna].
  apply bool_decide_eq_true in Hin.
  destruct (decide (c ∈ aborted (advance props t st))) as [Hab | Hab].
  { rewrite (bool_decide_eq_true_2 _ Hab) in Hna. done. }
  specialize (Hlive c Hin Hab).
  cbn. split; [exact Hlive | by apply Href].
Qed.

(** The settlement of an aborted fetch leaves the six calibration fields
    as they are. *)
Lemma superseded_keeps_calibration
    (st st' : State) (t c : nat) (o : Outcome) :
  c ∈ aborted (advance props t st) ->
  step props st (t, FetchSettled c o) = Some st' ->
  calibration (view st') = calibration (view (advance props t st)) /\
  isLoading (view st') = false.
Proof.
  intros Hab Hstep. unfold step in Hstep.
  destruct (t <? clock st)%nat; [done |].
  destruct (canSettle c o (advance props t st)) eqn:Hcan; [| done].
  injection Hstep as <-. unfold canSettle in Hcan.
  rewrite (bool_decide_eq_true_2 _ Hab) in Hcan.
  apply andb_true_iff in Hcan as [_ Ho].
  destruct o as [data | | errorName]; try done.
  unfold callInferenceAPI_resume. rewrite Ho. done.
Qed.

End Component.

Lemma success_replaces_server_fields_witness :
  (0%nat ∈ inFlight sample_inflight) /\
  (0%nat ∉ aborted sample_inflight) /\
  (clock sample_inflight <= 500)%nat /\ timerQuiet 500 sample_inflight /\
  exists st',
    step sample_props sample_inflight
      (500%nat, FetchSettled 0 (Success sample_response)) = Some st' /\
    view st'
    = {| sliderValue := 10;
         aiRecommendedValue := 14;
         confidenceInterval := (11, 19)%Q;
         projectedLift := 12.5;
         calibrationScore := 0.9;
         isLoading := false;
         latencyMs := 42 |}.
Proof.
  assert (Hin : 0%nat ∈ inFlight sample_inflight)
    by (apply (bool_decide_unpack _); vm_compute; exact I).
  assert (Hlive : 0%nat ∉ aborted sample_inflight)
    by (apply (bool_decide_unpack _); vm_compute; exact I).
  assert (Hle : (clock sample_inflight <= 500)%nat)
    by (vm_compute; lia).
  assert (Hquiet : timerQuiet 500 sample_inflight)
    by (vm_compute; exact I).
  repeat (split; [assumption |]).
  exact (success_replaces_server_fields sample_props sample_inflight
           500 0 sample_response Hin Hlive Hle Hquiet).
Defined.

Lemma debounce_issues_one_request_witness :
  exists st1,
    pendingCall (mount sample_props) = None /\
    run sample_props (mount sample_props) three_drags = Some st1 /\
    withinQuietPeriod None (drags three_drags) = true /\
    req_promo_value <$> requests (advance sample_props 500 st1)
    = [15%Q] /\
    req_at <$> requests (advance sample_props 500 st1) = [500%nat] /\
    sliderValue (view (advance sample_props 500 st1)) = 15%Q /\
    valueChanges (advance sample_props 500 st1) = [10%Q; 12%Q; 15%Q].
Proof.
  eexists.
  split; [reflexivity |].
  split; [vm_compute; reflexivity |].
  split; [reflexivity |].
  refine (let H := debounce_issues_one_request sample_props
                     (mount sample_props) _ three_drags
                     [(0%nat, 10%Q); (100%nat, 12%Q)] 200 15 500
                     eq_refl eq_refl eq_refl eq_refl _ _ in _).
  - destruct H as ((r & Hr & Hval & Hat & _) & Hs & Hv & _).
    split;
      [exact (eq_trans (f_equal (fmap req_promo_value) Hr)
                       (f_equal (fun x => [x]) Hval)) |].
    split;
      [exact (eq_trans (f_equal (fmap req_at) Hr)
                       (f_equal (fun x => [x]) Hat)) |].
    split; [exact Hs | exact Hv].
  Unshelve.
  + vm_compute. lia.
  + vm_compute. lia.
Defined.

End PromoCalibrationSliderSpec.

(** ** PricingHeatmap: the region map, tooltip and callbacks *)
Module PricingHeatmapViewSpec.
Import JS JSFacts PricingHeatmap PricingHeatmapSpec PricingHeatmapView.

Lemma regionDataMap_foldl (data : list RegionPricingData)
    (m : gmap string RegionPricingData) (code : string) :
  foldl (fun map d => <[ region_code d := d ]> map) m data !! code
  = match last (filter (fun d => region_code d = code) data) with
    | Some d => Some d
    | None => m !! code
    end.
Proof.
  revert m. induction data as [| d data IH]; intros m; simpl; [done |].
  rewrite IH, filter_cons.
  destruct (decide (region_code d = code)) as [Heq | Hne].
  - rewrite last_cons.
    destruct (last (filter _ data)); [done |].
    by rewrite <- Heq, lookup_insert_eq.
  - destruct (last (filter _ data)); [done |].
    by rewrite lookup_insert_ne.
Qed.

(** The map built from [data] holds, for each region code, the last entry
    of [data] with that code, and nothing for a code that does not
    occur. *)
Theorem regionDataMap_last_wins
    (data : list RegionPricingData) (code : string) :
  regionDataMap data !! code
  = last (filter (fun d => region_code d = code) data).
Proof.
  unfold regionDataMap. rewrite regionDataMap_foldl.
  by destruct (last (filter _ data)).
Qed.

Lemma regionDataMap_elem (data : list RegionPricingData) (code : string)
    (d : RegionPricingData) :
  regionDataMap data !! code = Some d -> d ∈ data /\ region_code d = code.
Proof.
  rewrite regionDataMap_last_wins. intros Hlast.
  assert (Hin : d ∈ filter (fun d => region_code d = code) data).
  { rewrite last_lookup in Hlast. eapply list_elem_of_lookup_2, Hlast. }
  apply list_elem_of_filter in Hin as [Hc Hd]. done.
Qed.

(** *** Tooltip and callbacks *)

Lemma dispatch_supplied (data : list RegionPricingData) (st : State)
    (ev : PointerEvent) :
  ((forall tt, tooltip st = Some tt -> tt_region tt ∈ data) /\
   (forall d, Some d ∈ hovered st -> d ∈ data) /\
   (forall d, d ∈ clicked st -> d ∈ data)) ->
  (forall tt, tooltip (dispatch data st ev) = Some tt ->
              tt_region tt ∈ data) /\
  (forall d, Some d ∈ hovered (dispatch data st ev) -> d ∈ data) /\
  (forall d, d ∈ clicked (dispatch data st ev) -> d ∈ data).
Proof.
  intros (Ht & Hh & Hc).
  destruct ev as [code x y | code | code]; simpl.
  - destruct (hasData data code); [| done].
    unfold handleRegionHover.
    destruct (regionDataMap data !! code) as [d |] eqn:Hd; [| done].
    apply regionDataMap_elem in Hd as [Hin _]. simpl.
    split; [by intros tt [= <-] |]. split; [| done].
    intros d' Hd'. apply elem_of_app in Hd' as [Hd' | Hd']; [by apply Hh |].
    apply list_elem_of_singleton in Hd'. by injection Hd' as ->.
  - split; [done |]. split; [| done].
    intros d' Hd'. apply elem_of_app in Hd' as [Hd' | Hd']; [by apply Hh |].
    by apply list_elem_of_singleton in Hd'.
  - destruct (hasData data code); [| done].
    unfold handleRegionClick.
    destruct (regionDataMap data !! code) as [d |] eqn:Hd; [| done].
    apply regionDataMap_elem in Hd as [Hin _]. simpl.
    split; [done |]. split; [done |].
    intros d' Hd'. apply elem_of_app in Hd' as [Hd' | Hd']; [by apply Hc |].
    by apply list_elem_of_singleton in Hd' as ->.
Qed.

(** Whatever the pointer does, the tooltip, [onRegionHover] and
    [onRegionClick] only ever carry regions that were supplied in
    [data]. *)
Theorem pointer_events_carry_supplied_regions
    (data : list RegionPricingData) (evs : list PointerEvent) :
  let st := dispatchAll data initial evs in
  (forall tt, tooltip st = Some tt -> tt_region tt ∈ data) /\
  (forall d, Some d ∈ hovered st -> d ∈ data) /\
  (forall d, d ∈ clicked st -> d ∈ data).
Proof.
  unfold dispatchAll.
  assert (Hinit : (forall tt, tooltip initial = Some tt ->
                              tt_region tt ∈ data) /\
                  (forall d, Some d ∈ hovered initial -> d ∈ data) /\
                  (forall d, d ∈ clicked initial -> d ∈ data)).
  { simpl. split; [done |].
    split; intros d Hd; by apply elem_of_nil in Hd. }
  revert Hinit. generalize initial.
  induction evs as [| ev evs IH]; intros st Hinv; simpl; [exact Hinv |].
  apply IH. by apply dispatch_supplied.
Qed.

Lemma pointer_events_carry_supplied_regions_witness :
  tooltip (dispatchAll [CA 3.5; TX 1.9] initial
             [MouseEnter "CA" 10 20; Click "CA"])
  = Some {| tt_region := CA 3.5; tt_x := 10; tt_y := 20 |} /\
  CA 3.5 ∈ [CA 3.5; TX 1.9].
Proof.
  assert (Ht : tooltip (dispatchAll [CA 3.5; TX 1.9] initial
                          [MouseEnter "CA" 10 20; Click "CA"])
               = Some {| tt_region := CA 3.5; tt_x := 10; tt_y := 20 |})
    by (vm_compute; reflexivity).
  split; [exact Ht |].
  exact (proj1 (pointer_events_carry_supplied_regions [CA 3.5; TX 1.9]
                  [MouseEnter "CA" 10 20; Click "CA"]) _ Ht).
Defined.

End PricingHeatmapViewSpec.

(** ** VendorMatrix: sort orders, statistics, cells and categories *)
Module VendorMatrixViewSpec.
Import JS SortFacts VendorMatrix VendorMatrixView.

(** Whichever order is selected, and whatever [localeCompare] answers,
    sorting neither drops nor duplicates a vendor. *)
Theorem sortedVendors_permutation
    (localeCompare : string -> string -> Z) (data : VendorMatrixData)
    (sortBy : SortBy) :
  sortedVendors localeCompare data sortBy ≡ₚ vendors data.
Proof. destruct sortBy; apply Array_sort_perm. Qed.

(** The comparator's count for the price order is the number of cells of
    the flattened matrix that carry the vendor's id and have rank 1. *)
Lemma bestPriceCount_rank_one_cells (data : VendorMatrixData) (v : Vendor) :
  bestPriceCount data v
  = Z.of_nat (length (filter (fun c => vendor_id c = v_vendor_id v
                                       /\ price_rank c = Some 1)
                             (flat (matrix data)))).
Proof.
  unfold bestPriceCount, array_length. do 2 f_equal.
  apply list_filter_iff. intros c.
  rewrite andb_true_iff, !bool_decide_eq_true. tauto.
Qed.

(** Sorting by best price puts the vendors in descending order of their
    number of matrix cells with [price_rank] 1, a vendor with more such
    cells before one with fewer, and keeps the input order among vendors
    with the same number. *)
Theorem sortedVendors_by_price
    (localeCompare : string -> string -> Z) (data : VendorMatrixData) :
  let ranked := fun v : Vendor =>
    length (filter (fun c => vendor_id c = v_vendor_id v
                             /\ price_rank c = Some 1)
                   (flat (matrix data))) in
  let sorted := sortedVendors localeCompare data by_price in
  (forall i j a b,
     sorted !! i = Some a -> sorted !! j = Some b -> (i < j)%nat ->
     (ranked b <= ranked a)%nat) /\
  (forall a b,
     a ∈ vendors data -> b ∈ vendors data ->
     (ranked a < ranked b)%nat ->
     placed_before b a sorted) /\
  (forall n : nat,
     filter (fun v => ranked v = n) sorted
     = filter (fun v => ranked v = n) (vendors data)).
Proof.
  intros ranked sorted. subst sorted. unfold sortedVendors.
  assert (Hkey : forall v, bestPriceCount data v = Z.of_nat (ranked v))
    by (intros v; apply bestPriceCount_rank_one_cells).
  assert (Hperm : Array_sort (comparePrice data) (vendors data)
                  ≡ₚ vendors data) by apply Array_sort_perm.
  assert (Hdesc : forall i j a b,
     Array_sort (comparePrice data) (vendors data) !! i = Some a ->
     Array_sort (comparePrice data) (vendors data) !! j = Some b ->
     (i < j)%nat -> (ranked b <= ranked a)%nat).
  { intros i j a b Hi Hj Hlt.
    assert (Hz : bestPriceCount data b <= bestPriceCount data a).
    { eapply (StronglySorted_lookup
                (fun a b => bestPriceCount data b <= bestPriceCount data a));
        [| exact Hi | exact Hj | exact Hlt].
      apply Array_sort_sorted. reflexivity. }
    rewrite !Hkey in Hz. lia. }
  split; [exact Hdesc |]. split.
  - intros a b Ha Hb Hlt.
    rewrite <- Hperm in Ha, Hb.
    apply list_elem_of_lookup_1 in Ha as [j Hj].
    apply list_elem_of_lookup_1 in Hb as [i Hi].
    exists i, j. split; [| done].
    destruct (Nat.lt_trichotomy i j) as [Hij | [Hij | Hij]]; [done | |].
    + subst j. rewrite Hi in Hj. inversion Hj; subst. lia.
    + specialize (Hdesc j i a b Hj Hi Hij). lia.
  - intros n.
    rewrite (list_filter_iff (fun v => ranked v = n)
               (fun v => bestPriceCount data v = Z.of_nat n)
               (Array_sort (comparePrice data) (vendors data)))
      by (intros v; rewrite Hkey; lia).
    rewrite (list_filter_iff (fun v => ranked v = n)
               (fun v => bestPriceCount data v = Z.of_nat n) (vendors data))
      by (intros v; rewrite Hkey; lia).
    apply Array_sort_stable. reflexivity.
Qed.

Lemma sortedVendors_by_price_witness :
  vendorA ∈ vendors ranked_data /\ vendorB ∈ vendors ranked_data /\
  length (filter (fun c => vendor_id c = "A"%string
                           /\ price_rank c = Some 1)
            (flat (matrix ranked_data))) = 1%nat /\
  length (filter (fun c => vendor_id c = "B"%string
                           /\ price_rank c = Some 1)
            (flat (matrix ranked_data))) = 2%nat /\
  placed_before vendorB vendorA
    (sortedVendors (fun _ _ => 0) ranked_data by_price).
Proof.
  assert (Ha : vendorA ∈ vendors ranked_data) by (left).
  assert (Hb : vendorB ∈ vendors ranked_data) by (right; left).
  split; [exact Ha |]. split; [exact Hb |].
  split; [vm_compute; reflexivity |]. split; [vm_compute; reflexivity |].
  destruct (sortedVendors_by_price (fun _ _ => 0) ranked_data)
    as (_ & Hbefore & _).
  apply (Hbefore vendorA vendorB Ha Hb). vm_compute. lia.
Defined.

(** *** The statistics shown beside each vendor *)

Lemma statOf_counts (data : VendorMatrixData) (skus : list SKU)
    (vendor : Vendor) :
  bestPrice (statOf data skus vendor) = bestPriceCount data vendor /\
  coverage (statOf data skus vendor)
  = if bool_decide (array_length skus = 0) then None
    else Some (inject_Z (coverageCount data vendor)
               / inject_Z (array_length skus) * 100)%Q.
Proof.
  unfold statOf, bestPriceCount, coverageCount. simpl. split.
  - f_equal. rewrite list_filter_filter. apply list_filter_iff.
    intros c. rewrite andb_true_iff, !bool_decide_eq_true. tauto.
  - destruct (bool_decide (array_length skus = 0)); [done |].
    rewrite list_filter_filter.
    rewrite (list_filter_iff _
               (fun c => bool_decide (vendor_id c = v_vendor_id vendor)
                         && has_pricing c = true)); [done |].
    intros c. rewrite andb_true_iff, bool_decide_eq_true. tauto.
Qed.

Lemma vendorStats_foldl (data : VendorMatrixData) (skus : list SKU)
    (sorted : list Vendor) (m : gmap string VendorStat) (v : Vendor) :
  v ∈ sorted \/ m !! v_vendor_id v = Some (statOf data skus v) ->
  foldl (fun stats vendor =>
           <[ v_vendor_id vendor := statOf data skus vendor ]> stats)
        m sorted !! v_vendor_id v
  = Some (statOf data skus v).
Proof.
  revert m. induction sorted as [| u sorted IH]; intros m Hin; simpl.
  - destruct Hin as [Hin | Hm]; [by apply elem_of_nil in Hin | done].
  - apply IH.
    destruct (decide (v_vendor_id u = v_vendor_id v)) as [Heq | Hne].
    + right. rewrite Heq, lookup_insert_eq. f_equal.
      unfold statOf. by rewrite Heq.
    + rewrite lookup_insert_ne by done.
      destruct Hin as [Hin | Hm]; [| by right].
      apply elem_of_cons in Hin as [-> | Hin]; [done | by left].
Qed.

(** The figures shown in a vendor's row are the counts the sort orders
    use: "Best Price" is the number of rank-1 cells of the vendor, and
    "Coverage" is its number of priced cells over the number of SKUs,
    times 100 (no finite number when there are no SKUs). *)
Theorem vendorStats_match_sort_keys
    (data : VendorMatrixData) (skus : list SKU) (sorted : list Vendor)
    (v : Vendor) :
  v ∈ sorted ->
  exists s,
    vendorStats data skus sorted !! v_vendor_id v = Some s /\
    bestPrice s = bestPriceCount data v /\
    coverage s
    = if bool_decide (array_length skus = 0) then None
      else Some (inject_Z (coverageCount data v)
                 / inject_Z (array_length skus) * 100)%Q.
Proof.
  intros Hin. exists (statOf data skus v).
  split; [apply vendorStats_foldl; by left | apply statOf_counts].
Qed.

Lemma vendorStats_match_sort_keys_witness :
  vendorB ∈ [vendorB; vendorA] /\
  exists s,
    vendorStats sample_data sample_skus [vendorB; vendorA] !! "B" = Some s /\
    bestPrice s = 7 /\
    coverage s = Some (inject_Z 7 / inject_Z 3 * 100)%Q.
Proof.
  assert (Hin : vendorB ∈ [vendorB; vendorA]) by (left).
  split; [exact Hin |].
  exact (vendorStats_match_sort_keys sample_data sample_skus
           [vendorB; vendorA] vendorB Hin).
Defined.

(** In coverage order the coverage percentages shown go down the rows,
    never up. *)
Theorem coverage_column_descends
    (localeCompare : string -> string -> Z) (data : VendorMatrixData)
    (skus : list SKU) (i j : nat) (a b : Vendor) :
  skus <> [] ->
  let sorted := sortedVendors localeCompare data by_coverage in
  sorted !! i = Some a -> sorted !! j = Some b -> (i < j)%nat ->
  exists ca cb,
    coverage <$> (vendorStats data skus sorted !! v_vendor_id a)
      = Some (Some ca) /\
    coverage <$> (vendorStats data skus sorted !! v_vendor_id b)
      = Some (Some cb) /\
    (cb <= ca)%Q.
Proof.
  intros Hne sorted Hi Hj Hlt.
  assert (Hlen : 0 < array_length skus).
  { unfold array_length. destruct skus; [done | simpl; lia]. }
  assert (Hkey : coverageCount data b <= coverageCount data a).
  { eapply (StronglySorted_lookup
              (fun a b => coverageCount data b <= coverageCount data a));
      [| exact Hi | exact Hj | exact Hlt].
    apply Array_sort_sorted. reflexivity. }
  destruct (vendorStats_match_sort_keys data skus sorted a)
    as (sa & Hsa & _ & Hca); [eapply list_elem_of_lookup_2, Hi |].
  destruct (vendorStats_match_sort_keys data skus sorted b)
    as (sb & Hsb & _ & Hcb); [eapply list_elem_of_lookup_2, Hj |].
  rewrite bool_decide_eq_false_2 in Hca, Hcb by lia.
  eexists. eexists. rewrite Hsa, Hsb. simpl. rewrite Hca, Hcb.
  split; [reflexivity |]. split; [reflexivity |].
  assert (Hpos : (0 < inject_Z (array_length skus))%Q).
  { change 0%Q with (inject_Z 0). by rewrite <- Zlt_Qlt. }
  apply Qmult_le_compat_r; [| discriminate].
  unfold Qdiv. apply Qmult_le_compat_r.
  - by rewrite <- Zle_Qle.
  - apply Qlt_le_weak, Qinv_lt_0_compat, Hpos.
Qed.

Lemma coverage_column_descends_witness :
  sample_skus <> [] /\
  exists ca cb,
    coverage <$> (vendorStats sample_data sample_skus
                    (sortedVendors (fun _ _ => 0) sample_data by_coverage)
                  !! "B") = Some (Some ca) /\
    coverage <$> (vendorStats sample_data sample_skus
                    (sortedVendors (fun _ _ => 0) sample_data by_coverage)
                  !! "A") = Some (Some cb) /\
    (cb <= ca)%Q.
Proof.
  assert (Hne : sample_skus <> []) by discriminate.
  split; [exact Hne |].
  apply (coverage_column_descends (fun _ _ => 0) sample_data sample_skus
           0 1 vendorB vendorA Hne).
  - vm_compute. reflexivity.
  - vm_compute. reflexivity.
  - lia.
Defined.

(** *** Cells *)

(** [getCell] returns a cell of the matrix whose vendor and SKU are the
    ones asked for, and it returns nothing only when the matrix has no
    such cell. *)
Theorem getCell_spec (data : VendorMatrixData) (vendorId skuId : string) :
  (forall c, getCell data vendorId skuId = Some c ->
     c ∈ flat (matrix data) /\ vendor_id c = vendorId /\ sku_id c = skuId) /\
  (getCell data vendorId skuId = None <->
   forall c, c ∈ flat (matrix data) ->
             ~ (vendor_id c = vendorId /\ sku_id c = skuId)).
Proof.
  unfold getCell. split.
  - intros c Hfind. apply find_some in Hfind as [Hin Hc].
    apply andb_true_iff in Hc as [Hv Hs].
    apply bool_decide_eq_true in Hv, Hs.
    split; [by apply list_elem_of_In | done].
  - split.
    + intros Hnone c Hin [Hv Hs].
      apply list_elem_of_In in Hin.
      pose proof (find_none _ _ Hnone c Hin) as Hc. simpl in Hc.
      rewrite !bool_decide_eq_true_2 in Hc by done. done.
    + intros Hno.
      destruct (List.find _ (flat (matrix data))) as [c |] eqn:E; [| done].
      apply find_some in E as [Hin Hc].
      apply andb_true_iff in Hc as [Hv Hs].
      apply bool_decide_eq_true in Hv, Hs.
      exfalso. apply (Hno c); [by apply list_elem_of_In | done].
Qed.

Lemma getCell_spec_witness :
  getCell sample_data "B" "S4" = Some (cell "B" "S4" true) /\
  cell "B" "S4" true ∈ flat (matrix sample_data) /\
  getCell sample_data "A" "S8" = None.
Proof.
  assert (H1 : getCell sample_data "B" "S4" = Some (cell "B" "S4" true))
    by (vm_compute; reflexivity).
  split; [exact H1 |].
  split; [exact (proj1 (proj1 (getCell_spec sample_data "B" "S4") _ H1)) |].
  apply (proj2 (getCell_spec sample_data "A" "S8")).
  intros c Hin [Hv Hs]. revert Hin. unfold flat. simpl.
  rewrite !elem_of_cons. rewrite elem_of_nil.
  intros Hin. repeat destruct Hin as [-> | Hin]; try discriminate; done.
Defined.

(** A cell is drawn transparent exactly when there is no cell or the
    cell has no pricing; and it is drawn in the single-source gold only
    for a priced cell of a single-source SKU with highlighting on, and,
    when ranks are shown and the cell is ranked, only for rank 1. *)
Theorem getCellColor_spec
    (showPriceRanking highlightSingleSource : bool)
    (data : VendorMatrixData) (cell : option VendorMatrixCell)
    (skuId : string) :
  (getCellColor showPriceRanking highlightSingleSource data cell skuId
   = "transparent"%string
   <-> match cell with
       | None => True
       | Some c => has_pricing c = false
       end) /\
  (getCellColor showPriceRanking highlightSingleSource data cell skuId
   = "#fde68a"%string ->
   highlightSingleSource = true /\ isSingleSource data skuId = true /\
   exists c, cell = Some c /\ has_pricing c = true /\
             (showPriceRanking = true -> rankTruthy c = true ->
              price_rank c = Some 1)).
Proof.
  unfold getCellColor.
  destruct cell as [c |]; [| split; [done | discriminate]].
  destruct (has_pricing c) eqn:Hp; simpl; [| split; [done | discriminate]].
  destruct showPriceRanking, (rankTruthy c) eqn:Hr,
    highlightSingleSource, (isSingleSource data skuId); simpl;
    repeat case_bool_decide;
    (split; [split; discriminate |]);
    try discriminate;
    intros _; (split; [done |]); (split; [done |]);
    exists c; (split; [done |]); (split; [done |]);
    try done; try (by intros [=]); try (intros _ Hx; congruence).
Qed.

Lemma getCellColor_spec_witness :
  getCellColor true true sample_data (Some (cell "A" "S1" true)) "S1"
  = "#fde68a"%string /\
  isSingleSource sample_data "S1" = true.
Proof.
  assert (H : getCellColor true true sample_data
                (Some (cell "A" "S1" true)) "S1" = "#fde68a"%string)
    by (vm_compute; reflexivity).
  split; [exact H |].
  exact (proj1 (proj2 (proj2 (getCellColor_spec true true sample_data
                                (Some (cell "A" "S1" true)) "S1") H))).
Defined.

Lemma dispatch_tooltip_priced (data : VendorMatrixData) (st : State)
    (ev : CellEvent) :
  (forall tt, tooltip st = Some tt ->
     has_pricing (ct_cell tt) = true /\
     ct_cell tt ∈ flat (matrix data) /\
     vendor_id (ct_cell tt) = v_vendor_id (ct_vendor tt) /\
     sku_id (ct_cell tt) = s_sku_id (ct_sku tt)) ->
  forall tt, tooltip (dispatch data st ev) = Some tt ->
    has_pricing (ct_cell tt) = true /\
    ct_cell tt ∈ flat (matrix data) /\
    vendor_id (ct_cell tt) = v_vendor_id (ct_vendor tt) /\
    sku_id (ct_cell tt) = s_sku_id (ct_sku tt).
Proof.
  intros Hinv.
  destruct ev as [vendor sku x y | | vendor sku]; simpl.
  - destruct (getCell data (v_vendor_id vendor) (s_sku_id sku))
      as [c |] eqn:Hc; [| exact Hinv].
    apply (proj1 (getCell_spec data _ _)) in Hc as (Hin & Hv & Hs).
    unfold handleCellHover. destruct (has_pricing c) eqn:Hp; [| exact Hinv].
    simpl. by intros tt [= <-].
  - done.
  - destruct (getCell data (v_vendor_id vendor) (s_sku_id sku));
      exact Hinv.
Qed.

(** Whatever the pointer does over the grid, the tooltip only ever shows
    a priced cell of the matrix, together with the vendor and the SKU of
    that cell's row and column. *)
Theorem cell_tooltip_shows_priced_cells
    (data : VendorMatrixData) (evs : list CellEvent) (tt : CellTooltip) :
  tooltip (dispatchAll data initial evs) = Some tt ->
  has_pricing (ct_cell tt) = true /\
  ct_cell tt ∈ flat (matrix data) /\
  vendor_id (ct_cell tt) = v_vendor_id (ct_vendor tt) /\
  sku_id (ct_cell tt) = s_sku_id (ct_sku tt).
Proof.
  unfold dispatchAll. revert tt.
  assert (Hinit : forall tt, tooltip initial = Some tt ->
     has_pricing (ct_cell tt) = true /\
     ct_cell tt ∈ flat (matrix data) /\
     vendor_id (ct_cell tt) = v_vendor_id (ct_vendor tt) /\
     sku_id (ct_cell tt) = s_sku_id (ct_sku tt)) by done.
  revert Hinit. generalize initial.
  induction evs as [| ev evs IH]; intros st Hinv; simpl; [exact Hinv |].
  apply IH. by apply dispatch_tooltip_priced.
Qed.

Lemma cell_tooltip_shows_priced_cells_witness :
  exists tt,
    tooltip (dispatchAll sample_data initial
               [CellEnter vendorA
                  {| s_sku_id := "S4"; product_name := "Nails";
                     category := "hardware" |} 1 2;
                CellEnter vendorB
                  {| s_sku_id := "S4"; product_name := "Nails";
                     category := "hardware" |} 3 4]) = Some tt /\
    has_pricing (ct_cell tt) = true /\
    vendor_id (ct_cell tt) = "B"%string.
Proof.
  eexists. split; [vm_compute; reflexivity |].
  split.
  - refine (proj1 (cell_tooltip_shows_priced_cells sample_data
                     [CellEnter vendorA
                        {| s_sku_id := "S4"; product_name := "Nails";
                           category := "hardware" |} 1 2;
                      CellEnter vendorB
                        {| s_sku_id := "S4"; product_name := "Nails";
                           category := "hardware" |} 3 4] _ _)).
    vm_compute. reflexivity.
  - reflexivity.
Defined.

(** *** Category filter *)

Lemma Set_from_foldl (xs acc : list string) :
  NoDup acc ->
  NoDup (foldl (fun acc x => if bool_decide (x ∈ acc) then acc
                             else acc ++ [x]) acc xs) /\
  forall c,
    c ∈ foldl (fun acc x => if bool_decide (x ∈ acc) then acc
                            else acc ++ [x]) acc xs
    <-> c ∈ acc \/ c ∈ xs.
Proof.
  revert acc. induction xs as [| x xs IH]; intros acc Hnd; simpl.
  - split; [done |]. intros c. rewrite elem_of_nil. tauto.
  - case_bool_decide as Hx.
    + destruct (IH acc Hnd) as [Hnd' Hiff]. split; [done |].
      intros c. rewrite Hiff, elem_of_cons.
      split; [tauto |]. intros [H | [-> | H]]; tauto.
    + assert (Hnd1 : NoDup (acc ++ [x])).
      { apply NoDup_app. split; [done |]. split; [| apply NoDup_singleton].
        intros y Hy Hy'. apply list_elem_of_singleton in Hy' as ->. done. }
      destruct (IH (acc ++ [x]) Hnd1) as [Hnd' Hiff]. split; [done |].
      intros c. rewrite Hiff, elem_of_app, list_elem_of_singleton,
        elem_of_cons. tauto.
Qed.

(** The category dropdown lists each category of the SKUs once and
    nothing else, and choosing any listed category leaves at least one
    SKU column. *)
Theorem categories_spec
    (compareCodeUnits : string -> string -> Z) (skus : list SKU) :
  NoDup (categories compareCodeUnits skus) /\
  (forall c, c ∈ categories compareCodeUnits skus
             <-> exists sku, sku ∈ skus /\ category sku = c) /\
  (forall c, c ∈ categories compareCodeUnits skus ->
             filteredSKUs skus c <> []).
Proof.
  unfold categories.
  pose proof (Array_sort_perm compareCodeUnits
                (Set_from (map category skus))) as Hperm.
  destruct (Set_from_foldl (map category skus) [] (NoDup_nil_2))
    as [Hnd Hiff].
  assert (Hmem : forall c,
    c ∈ Array_sort compareCodeUnits (Set_from (map category skus))
    <-> exists sku, sku ∈ skus /\ category sku = c).
  { intros c. rewrite Hperm. unfold Set_from. rewrite Hiff.
    rewrite elem_of_nil, list_elem_of_fmap. split.
    - intros [[] | (sku & -> & Hin)]. by exists sku.
    - intros (sku & Hin & <-). right. by exists sku. }
  split; [by rewrite Hperm |]. split; [exact Hmem |].
  intros c Hc. apply Hmem in Hc as (sku & Hin & Hcat).
  unfold filteredSKUs. case_bool_decide.
  - intros ->. by apply elem_of_nil in Hin.
  - intros Hnil.
    assert (Hf : sku ∈ filter (fun sku => category sku = c) skus)
      by (by apply list_elem_of_filter).
    rewrite Hnil in Hf. by apply elem_of_nil in Hf.
Qed.

Lemma categories_spec_witness :
  "plumbing"%string ∈ categories (fun _ _ => 0) sample_skus /\
  filteredSKUs sample_skus "plumbing" <> [].
Proof.
  destruct (categories_spec (fun _ _ => 0) sample_skus) as (_ & Hmem & Hne).
  assert (Hin : "plumbing"%string ∈ categories (fun _ _ => 0) sample_skus).
  { apply Hmem. eexists. split; [right; left | reflexivity]. }
  split; [exact Hin | exact (Hne _ Hin)].
Defined.

End VendorMatrixViewSpec.

(** ** PromoCalibrationSlider: track positions, failures, teardown and
    invariants of the request log *)
Module PromoCalibrationSliderViewSpec.
Import PromoCalibrationSlider PromoCalibrationSliderSpec
       PromoCalibrationSliderView.

#[local] Arguments step : simpl never.
#[local] Arguments advance : simpl never.
#[local] Arguments callInferenceAPI : simpl never.
#[local] Arguments callInferenceAPI_resume : simpl never.

(** *** Positions along the track *)

Lemma calculatePosition_scale (promoType : PromoType) (value : Q) :
  (calculatePosition (getSliderConfig promoType) value
   == value * (100 / cfg_max (getSliderConfig promoType)))%Q.
Proof.
  destruct promoType; unfold calculatePosition; simpl; field.
Qed.

(** For both promotion types a value inside the slider's domain is drawn
    inside the track: the position is between 0 and 100, the domain's ends
    are drawn at 0 and 100, and a larger value is never drawn further
    left. *)
Theorem calculatePosition_on_track
    (promoType : PromoType) (v1 v2 : Q) :
  let c := getSliderConfig promoType in
  (calculatePosition c (cfg_min c) == 0)%Q /\
  (calculatePosition c (cfg_max c) == 100)%Q /\
  ((cfg_min c <= v1)%Q -> (v1 <= v2)%Q -> (v2 <= cfg_max c)%Q ->
   (0 <= calculatePosition c v1)%Q /\
   (calculatePosition c v1 <= calculatePosition c v2)%Q /\
   (calculatePosition c v2 <= 100)%Q).
Proof.
  intros c. subst c. rewrite !calculatePosition_scale.
  destruct promoType; simpl.
  - split; [reflexivity |]. split; [reflexivity |].
    intros H1 H2 H3.
    assert (E : (100 / 500 == 1 # 5)%Q) by reflexivity.
    rewrite !E. lra.
  - split; [reflexivity |]. split; [reflexivity |].
    intros H1 H2 H3.
    assert (E : (100 / 50 == 2)%Q) by reflexivity.
    rewrite !E. lra.
Qed.

Lemma calculatePosition_on_track_witness :
  (0 <= 10)%Q /\ (10 <= 20)%Q /\ (20 <= 50)%Q /\
  (0 <= calculatePosition (getSliderConfig percentage) 10)%Q /\
  (calculatePosition (getSliderConfig percentage) 10
   <= calculatePosition (getSliderConfig percentage) 20)%Q /\
  (calculatePosition (getSliderConfig percentage) 20 <= 100)%Q.
Proof.
  assert (H1 : (0 <= 10)%Q) by discriminate.
  assert (H2 : (10 <= 20)%Q) by discriminate.
  assert (H3 : (20 <= 50)%Q) by discriminate.
  split; [exact H1 |]. split; [exact H2 |]. split; [exact H3 |].
  exact (proj2 (proj2 (calculatePosition_on_track percentage 10 20))
           H1 H2 H3).
Defined.

(** The confidence band of an interval that lies inside the slider's
    domain, lower bound first, lies inside the track and has a
    non-negative width. *)
Theorem confidence_band_on_track (promoType : PromoType) (w : View) :
  let c := getSliderConfig promoType in
  (cfg_min c <= fst (confidenceInterval w))%Q ->
  (fst (confidenceInterval w) <= snd (confidenceInterval w))%Q ->
  (snd (confidenceInterval w) <= cfg_max c)%Q ->
  (0 <= confidenceLowerPosition c w)%Q /\
  (0 <= confidenceWidth c w)%Q /\
  (confidenceLowerPosition c w + confidenceWidth c w <= 100)%Q.
Proof.
  intros c H1 H2 H3.
  destruct (proj2 (proj2 (calculatePosition_on_track promoType
                            (fst (confidenceInterval w))
                            (snd (confidenceInterval w)))) H1 H2 H3)
    as (Hlo & Hmono & Hhi).
  unfold confidenceWidth, confidenceLowerPosition, confidenceUpperPosition.
  fold c in Hlo, Hmono, Hhi. split; [exact Hlo |]. split; lra.
Qed.

Lemma confidence_band_on_track_witness :
  (0 <= 10)%Q /\ (10 <= 20)%Q /\ (20 <= 50)%Q /\
  (0 <= confidenceWidth (getSliderConfig percentage)
          (view (mount sample_props)))%Q.
Proof.
  assert (H1 : (0 <= 10)%Q) by discriminate.
  assert (H2 : (10 <= 20)%Q) by discriminate.
  assert (H3 : (20 <= 50)%Q) by discriminate.
  split; [exact H1 |]. split; [exact H2 |]. split; [exact H3 |].
  exact (proj1 (proj2 (confidence_band_on_track percentage
                         (view (mount sample_props)) H1 H2 H3))).
Defined.

(** *** Invariants of the event loop *)

Section Component.
Variable props : Props.

Lemma callInferenceAPI_platform (value : Q) (st : State) :
  let st' := callInferenceAPI props value st in
  inFlight st' = {[ controllersMade st ]} ∪ inFlight st /\
  aborted st'
  = match abortControllerRef st with
    | Some c => {[ c ]} ∪ aborted st
    | None => aborted st
    end /\
  view st' = setIsLoading true (view st) /\
  errorsLogged st' = errorsLogged st.
Proof.
  unfold callInferenceAPI.
  destruct (abortControllerRef st); simpl; repeat split; reflexivity.
Qed.

(** A property that holds after mounting and is kept by the passing of
    time, by a slider change and by a settlement holds in every reachable
    state. *)
Lemma reachable_invariant (P : State -> Prop) :
  P (mount props) ->
  (forall st t, P st -> P (advance props t st)) ->
  (forall st v, P st -> P (handleSliderChange v st)) ->
  (forall st c o, P st -> canSettle c o st = true ->
                  P (callInferenceAPI_resume o (settled c st))) ->
  forall st, reachable props st -> P st.
Proof.
  intros Hmount Hadv Hdrag Hsettle st [tr Hrun].
  revert Hrun. generalize Hmount. generalize (mount props).
  induction tr as [| [t ev] tr IH]; intros s Hs; simpl.
  - by intros [= <-].
  - destruct (step props s (t, ev)) as [s1 |] eqn:E; [| done].
    apply IH. unfold step in E. destruct (t <? clock s)%nat; [done |].
    destruct ev as [v | c o].
    + injection E as <-. apply Hdrag, Hadv, Hs.
    + destruct (canSettle c o (advance props t s)) eqn:Hcan; [| done].
      injection E as <-. apply Hsettle; [apply Hadv, Hs | exact Hcan].
Qed.

(** In every reachable state at most one fetch is in flight without
    being aborted. *)
Theorem at_most_one_live (st : State) (c1 c2 : nat) :
  reachable props st ->
  c1 ∈ inFlight st -> c1 ∉ aborted st ->
  c2 ∈ inFlight st -> c2 ∉ aborted st ->
  c1 = c2.
Proof.
  intros Hreach H1 H1' H2 H2'.
  destruct (oneLive_reachable props st Hreach) as (Hlive & _).
  pose proof (Hlive c1 H1 H1') as E1.
  pose proof (Hlive c2 H2 H2') as E2. congruence.
Qed.

(** The slider always shows the value last given to [onValueChange], and
    the initial AI value as long as there was no such call. *)
Theorem slider_matches_last_callback (st : State) :
  reachable props st ->
  sliderValue (view st)
  = match last (valueChanges st) with
    | Some v => v
    | None => initialAiValue props
    end.
Proof.
  intros [tr Hrun].
  rewrite (run_sliderValue props tr _ _ Hrun).
  rewrite (run_valueChanges props tr _ _ Hrun). simpl.
  rewrite fmap_last. by destruct (last (drags tr)) as [[t v] |].
Qed.

(** The request log and the number of controllers made go together:
    the n-th request carries the signal of the n-th controller, so no two
    requests share a signal. *)
Theorem requests_carry_fresh_signals (st : State) :
  reachable props st ->
  req_signal <$> requests st = seq 0 (controllersMade st).
Proof.
  apply (reachable_invariant
           (fun st => req_signal <$> requests st
                      = seq 0 (controllersMade st))).
  - reflexivity.
  - intros s t Hs. unfold advance.
    destruct (pendingCall s) as [[due v] |]; [| exact Hs].
    destruct (due <=? t)%nat; [| exact Hs].
    destruct (callInferenceAPI_fields props v
                (with_pendingCall None (with_clock due s)))
      as (_ & _ & _ & _ & Hc & _ & Hr).
    cbn. rewrite Hr, Hc, seq_S, fmap_app. cbn. by rewrite Hs.
  - intros s v Hs. exact Hs.
  - intros s c o Hs _.
    destruct (callInferenceAPI_resume_fields o (settled c s))
      as (_ & _ & _ & _ & Hc & _ & Hr & _).
    rewrite Hr, Hc. exact Hs.
Qed.

(** A pending debounced call carries the value the slider shows; with
    nothing pending, the latest request was made for the value the slider
    shows, and if no request was made the slider was never dragged. *)
Theorem request_matches_slider (st : State) :
  reachable props st -> requestMatchesSlider st.
Proof.
  apply (reachable_invariant requestMatchesSlider).
  - reflexivity.
  - intros s t Hs. unfold requestMatchesSlider in *. unfold advance.
    destruct (pendingCall s) as [[due v] |] eqn:Hp.
    + destruct (due <=? t)%nat.
      * destruct (callInferenceAPI_fields props v
                    (with_pendingCall None (with_clock due s)))
          as (Hsl & _ & Hp' & _ & _ & _ & Hr).
        cbn. rewrite Hp', Hr, Hsl. cbn. by rewrite last_snoc.
      * cbn. by rewrite Hp.
    + cbn. by rewrite Hp.
  - intros s v _. reflexivity.
  - intros s c o Hs _. unfold requestMatchesSlider in *.
    destruct (callInferenceAPI_resume_fields o (settled c s))
      as (Hsl & Hv & Hp & _ & _ & _ & Hr & _).
    rewrite Hp, Hr, Hsl, Hv. exact Hs.
Qed.

(** While the loading flag is set, the request of the latest controller
    is in flight and not aborted: the indicator never shows with nothing
    under way. *)
Theorem loading_implies_live (st : State) :
  reachable props st -> isLoading (view st) = true -> currentLive st.
Proof.
  intros Hreach.
  cut (oneLive st /\ (isLoading (view st) = true -> currentLive st));
    [tauto |].
  revert st Hreach.
  apply (reachable_invariant
           (fun st => oneLive st /\
                      (isLoading (view st) = true -> currentLive st))).
  - split; [apply oneLive_mount | discriminate].
  - intros s t [Hone Hl]. split; [by apply oneLive_advance |].
    unfold advance.
    destruct (pendingCall s) as [[due v] |]; [| exact Hl].
    destruct (due <=? t)%nat; [| exact Hl].
    intros _. unfold currentLive. cbn.
    destruct (callInferenceAPI_fields props v
                (with_pendingCall None (with_clock due s)))
      as (_ & _ & _ & _ & _ & Href & _).
    destruct (callInferenceAPI_platform v
                (with_pendingCall None (with_clock due s)))
      as (Hfl & Hab & _).
    exists (controllersMade s). rewrite Href, Hfl, Hab. cbn.
    destruct Hone as (_ & Habt & _ & Hrefc).
    split; [done |]. split; [apply elem_of_union_l, elem_of_singleton; done |].
    destruct (abortControllerRef s) as [p |] eqn:Ep.
    + rewrite not_elem_of_union, not_elem_of_singleton.
      specialize (Hrefc p eq_refl).
      split; [lia |]. intros Hin. specialize (Habt _ Hin). lia.
    + intros Hin. specialize (Habt _ Hin). lia.
  - intros s v [Hone Hl]. split; [| exact Hl].
    by apply (oneLive_ext s).
  - intros s c o [Hone Hl] Hcan.
    destruct (callInferenceAPI_resume_fields o (settled c s))
      as (_ & _ & _ & _ & Hc & Hr & _ & Ha & Hf & Hload).
    split; [| rewrite Hload; discriminate].
    eapply oneLive_ext; [exact Hr | exact Hc | exact Ha | by rewrite Hf |].
    apply (oneLive_ext s); try done.
    simpl. intros x Hx. by apply elem_of_difference in Hx as [Hx _].
Qed.

(** *** Failures *)

(** When the fetch of a live request ends without a usable response (a
    status that is not ok, or a rejection), slider value, confidence
    interval, AI value, lift, score and latency stay as they were and the
    loading flag is cleared; the error is logged once, except for an
    [AbortError], which is not logged. *)
Theorem failure_keeps_calibration
    (st : State) (t c : nat) (o : Outcome) :
  c ∈ inFlight st -> c ∉ aborted st ->
  (clock st <= t)%nat -> timerQuiet t st ->
  (forall data, o <> Success data) ->
  exists st',
    step props st (t, FetchSettled c o) = Some st' /\
    calibration (view st') = calibration (view st) /\
    isLoading (view st') = false /\
    errorsLogged st'
    = match o with
      | Rejected "AbortError" => errorsLogged st
      | _ => S (errorsLogged st)
      end.
Proof.
  intros Hin Hlive Hle Hquiet Hfail. unfold step.
  destruct (Nat.ltb_spec t (clock st)) as [| _]; [lia |].
  assert (Hadv : advance props t st = with_clock t st).
  { unfold timerQuiet in Hquiet.
    destruct (pendingCall st) as [[due v] |] eqn:Hp.
    - by apply (advance_not_due props t due v).
    - by apply advance_idle. }
  rewrite Hadv. unfold canSettle. simpl.
  rewrite (bool_decide_eq_true_2 _ Hin), (bool_decide_eq_false_2 _ Hlive).
  simpl. eexists. split; [reflexivity |].
  unfold callInferenceAPI_resume.
  destruct o as [data | | errorName]; [by destruct (Hfail data) | done |].
  case_bool_decide as Hname.
  - subst errorName. done.
  - split; [done |]. split; [done |].
    cbn. destruct errorName as [| a errorName]; [done |].
    repeat (match goal with
            | |- context [match ?x with _ => _ end] => destruct x; try done
            end).
Qed.

(** *** Teardown *)

Lemma cleanup_quiet (st : State) :
  oneLive st ->
  pendingCall (cleanup st) = None /\
  (forall c, c ∈ inFlight (cleanup st) -> c ∈ aborted (cleanup st)).
Proof.
  intros (Hlive & _). unfold cleanup, debouncedInference_cancel. simpl.
  destruct (abortControllerRef st) as [p |] eqn:Ep; simpl.
  - split; [done |]. intros c Hin.
    destruct (decide (c ∈ aborted st)) as [Hab | Hab];
      [by apply elem_of_union_r |].
    specialize (Hlive c Hin Hab). injection Hlive as ->.
    by apply elem_of_union_l, elem_of_singleton.
  - split; [done |]. intros c Hin.
    destruct (decide (c ∈ aborted st)) as [Hab | Hab]; [done |].
    by specialize (Hlive c Hin Hab).
Qed.

Lemma quiet_settlement (st st' : State) (t c : nat) (o : Outcome) :
  pendingCall st = None ->
  (forall c, c ∈ inFlight st -> c ∈ aborted st) ->
  step props st (t, FetchSettled c o) = Some st' ->
  (pendingCall st' = None /\
   (forall c, c ∈ inFlight st' -> c ∈ aborted st')) /\
  calibration (view st') = calibration (view st) /\
  requests st' = requests st /\
  valueChanges st' = valueChanges st /\
  errorsLogged st' = errorsLogged st.
Proof.
  intros Hp Hall. unfold step.
  destruct (t <? clock st)%nat; [done |].
  rewrite (advance_idle props t st Hp).
  destruct (canSettle c o (with_clock t st)) eqn:Hcan; [| done].
  intros [= <-]. unfold canSettle in Hcan. simpl in Hcan.
  apply andb_true_iff in Hcan as [Hin Ho].
  apply bool_decide_eq_true in Hin.
  rewrite (bool_decide_eq_true_2 _ (Hall c Hin)) in Ho.
  destruct o as [data | | errorName]; try done.
  unfold callInferenceAPI_resume. rewrite Ho. simpl.
  split; [| done]. split; [done |].
  intros x Hx. apply elem_of_difference in Hx as [Hx _]. by apply Hall.
Qed.

(** After the unmount cleanup nothing is pending and every fetch still
    in flight is aborted; whatever settlements arrive afterwards, no
    request is issued, nothing is logged, [onValueChange] is not called
    and the six calibration fields keep the values they had. *)
Theorem cleanup_silences_component
    (st st' : State) (tr : list (nat * Event)) :
  reachable props st ->
  settlementsOnly tr ->
  run props (cleanup st) tr = Some st' ->
  pendingCall st' = None /\
  (forall c, c ∈ inFlight st' -> c ∈ aborted st') /\
  calibration (view st') = calibration (view st) /\
  requests st' = requests st /\
  valueChanges st' = valueChanges st /\
  errorsLogged st' = errorsLogged st.
Proof.
  intros Hreach Hset.
  destruct (cleanup_quiet st (oneLive_reachable props st Hreach))
    as [Hp Hall].
  assert (Hsame : calibration (view (cleanup st)) = calibration (view st)
                  /\ requests (cleanup st) = requests st
                  /\ valueChanges (cleanup st) = valueChanges st
                  /\ errorsLogged (cleanup st) = errorsLogged st).
  { unfold cleanup, debouncedInference_cancel. simpl.
    by destruct (abortControllerRef st). }
  revert Hp Hall Hsame. generalize (cleanup st).
  unfold settlementsOnly in Hset.
  induction tr as [| [t [v | c o]] tr IH]; intros s Hp Hall Hsame; simpl.
  - intros [= <-]. tauto.
  - discriminate.
  - destruct (step props s (t, FetchSettled c o)) as [s1 |] eqn:E;
      [| done].
    destruct (quiet_settlement s s1 t c o Hp Hall E)
      as ((Hp1 & Hall1) & Hc1 & Hr1 & Hv1 & He1).
    apply IH; [exact Hset | exact Hp1 | exact Hall1 |].
    destruct Hsame as (Hc & Hr & Hv & He).
    rewrite Hc1, Hr1, Hv1, He1. done.
Qed.

End Component.

Lemma after_two_bursts_reachable : reachable sample_props after_two_bursts.
Proof. exists two_bursts. reflexivity. Qed.

Lemma at_most_one_live_witness :
  reachable sample_props after_two_bursts /\
  (0%nat ∈ inFlight after_two_bursts) /\
  (0%nat ∉ aborted after_two_bursts) /\
  0%nat = 0%nat.
Proof.
  assert (Hin : 0%nat ∈ inFlight after_two_bursts)
    by (apply (bool_decide_unpack _); vm_compute; exact I).
  assert (Hlive : 0%nat ∉ aborted after_two_bursts)
    by (apply (bool_decide_unpack _); vm_compute; exact I).
  split; [exact after_two_bursts_reachable |].
  split; [exact Hin |]. split; [exact Hlive |].
  exact (at_most_one_live sample_props after_two_bursts 0%nat 0%nat
           after_two_bursts_reachable Hin Hlive Hin Hlive).
Defined.

Lemma slider_matches_last_callback_witness :
  reachable sample_props after_two_bursts /\
  sliderValue (view after_two_bursts)
  = match last (valueChanges after_two_bursts) with
    | Some v => v
    | None => initialAiValue sample_props
    end.
Proof.
  split; [exact after_two_bursts_reachable |].
  exact (slider_matches_last_callback sample_props after_two_bursts
           after_two_bursts_reachable).
Defined.

Lemma requests_carry_fresh_signals_witness :
  reachable sample_props after_two_bursts /\
  req_signal <$> requests after_two_bursts
  = seq 0 (controllersMade after_two_bursts).
Proof.
  split; [exact after_two_bursts_reachable |].
  exact (requests_carry_fresh_signals sample_props after_two_bursts
           after_two_bursts_reachable).
Defined.

Lemma request_matches_slider_witness :
  reachable sample_props after_two_bursts /\
  requestMatchesSlider after_two_bursts.
Proof.
  split; [exact after_two_bursts_reachable |].
  exact (request_matches_slider sample_props after_two_bursts
           after_two_bursts_reachable).
Defined.

Lemma loading_implies_live_witness :
  reachable sample_props after_two_bursts /\
  isLoading (view after_two_bursts) = true /\
  currentLive after_two_bursts.
Proof.
  assert (Hl : isLoading (view after_two_bursts) = true)
    by (vm_compute; reflexivity).
  split; [exact after_two_bursts_reachable |]. split; [exact Hl |].
  exact (loading_implies_live sample_props after_two_bursts
           after_two_bursts_reachable Hl).
Defined.

Lemma cleanup_silences_component_witness :
  exists st',
    reachable sample_props after_two_bursts /\
    settlementsOnly [(500%nat, FetchSettled 0 (Rejected "AbortError"))] /\
    run sample_props (cleanup after_two_bursts)
      [(500%nat, FetchSettled 0 (Rejected "AbortError"))] = Some st' /\
    pendingCall st' = None /\
    requests st' = requests after_two_bursts.
Proof.
  eexists.
  split; [exact after_two_bursts_reachable |].
  split; [reflexivity |].
  split; [vm_compute; reflexivity |].
  refine (let H := cleanup_silences_component sample_props
                     after_two_bursts _
                     [(500%nat, FetchSettled 0 (Rejected "AbortError"))]
                     after_two_bursts_reachable eq_refl _ in _).
  - destruct H as (Hp & _ & _ & Hr & _). split; [exact Hp | exact Hr].
  Unshelve.
  vm_compute. reflexivity.
Defined.

Lemma applied_result_is_latest_witness :
  exists st',
    reachable sample_props after_two_bursts /\
    step sample_props after_two_bursts
      (500%nat, FetchSettled 0 (Success sample_response)) = Some st' /\
    abortControllerRef st' = Some 0%nat /\ controllersMade st' = 1%nat.
Proof.
  eexists.
  split; [exact after_two_bursts_reachable |].
  split; [vm_compute; reflexivity |].
  apply (applied_result_is_latest sample_props after_two_bursts _ 500 0
           sample_response after_two_bursts_reachable).
  vm_compute. reflexivity.
Defined.

Lemma superseded_keeps_calibration_witness :
  exists st',
    (0%nat ∈ aborted (advance sample_props 700 after_two_bursts)) /\
    step sample_props after_two_bursts
      (700%nat, FetchSettled 0 (Rejected "AbortError")) = Some st' /\
    calibration (view st')
    = calibration (view (advance sample_props 700 after_two_bursts)) /\
    isLoading (view st') = false.
Proof.
  assert (Hab : 0%nat ∈ aborted (advance sample_props 700 after_two_bursts))
    by (apply (bool_decide_unpack _); vm_compute; exact I).
  eexists.
  split; [exact Hab |].
  split; [vm_compute; reflexivity |].
  apply (superseded_keeps_calibration sample_props after_two_bursts _ 700 0
           (Rejected "AbortError") Hab).
  vm_compute. reflexivity.
Defined.

Lemma failure_keeps_calibration_witness :
  (0%nat ∈ inFlight sample_inflight) /\
  (0%nat ∉ aborted sample_inflight) /\
  (clock sample_inflight <= 500)%nat /\ timerQuiet 500 sample_inflight /\
  exists st',
    step sample_props sample_inflight (500%nat, FetchSettled 0 HttpError)
    = Some st' /\
    calibration (view st') = calibration (view sample_inflight) /\
    isLoading (view st') = false /\
    errorsLogged st' = S (errorsLogged sample_inflight).
Proof.
  assert (Hin : 0%nat ∈ inFlight sample_inflight)
    by (apply (bool_decide_unpack _); vm_compute; exact I).
  assert (Hlive : 0%nat ∉ aborted sample_inflight)
    by (apply (bool_decide_unpack _); vm_compute; exact I).
  assert (Hle : (clock sample_inflight <= 500)%nat)
    by (vm_compute; lia).
  assert (Hquiet : timerQuiet 500 sample_inflight)
    by (vm_compute; exact I).
  split; [exact Hin |]. split; [exact Hlive |].
  split; [exact Hle |]. split; [exact Hquiet |].
  apply (failure_keeps_calibration sample_props sample_inflight 500 0
           HttpError Hin Hlive Hle Hquiet).
  discriminate.
Defined.

End PromoCalibrationSliderViewSpec.

(** ** SKUSearch: the badge count and the debounced text search *)
Module SKUSearchPanelSpec.
Import SKUSearch SKUSearchSpec SKUSearchPanel.

#[local] Arguments step : simpl never.
#[local] Arguments advance : simpl never.
#[local] Arguments fired : simpl never.
#[local] Arguments waiting : simpl never.

Lemma isActive_or_else (value : Value) :
  isActive (or_else value Undefined) = truthy value.
Proof.
  unfold or_else.
  destruct value as [| [] | q | s]; simpl; try reflexivity.
  - by destruct (Qeq_bool q 0).
  - destruct (bool_decide (s = ""%string)) eqn:E; simpl; [done |].
    by rewrite E.
Qed.

Lemma activeFilterCount_insert (fs : gmap string Value) (key : string)
    (v : Value) :
  activeFilterCount (<[ key := v ]> fs)
  = ((if isActive v then 1 else 0) + activeFilterCount (delete key fs))%nat.
Proof.
  unfold activeFilterCount.
  rewrite <- (insert_delete_eq fs key v).
  rewrite (map_to_list_insert (delete key fs) key v)
    by apply lookup_delete_eq.
  rewrite filter_cons. simpl.
  by destruct (isActive v).
Qed.

(** A change made through [handleFilterChange] counts in the "Clear (n)"
    badge exactly when the value is truthy: the count becomes the number
    of the other active fields, plus one for a truthy value. *)
Theorem handleFilterChange_badge_count
    (key : string) (value : Value) (st : State) :
  activeFilterCount (filters (handleFilterChange key value st))
  = ((if truthy value then 1 else 0)
     + activeFilterCount (delete key (filters st)))%nat.
Proof.
  unfold handleFilterChange. simpl.
  by rewrite activeFilterCount_insert, isActive_or_else.
Qed.

(** Typing an empty text leaves the [query] field present and empty, not
    [undefined] as the clear button does; neither counts in the badge. *)
Theorem empty_query_present_but_inactive (p : Panel) :
  filters (base (handleQueryChange "" p)) !! "query"%string
    = Some (Str "") /\
  filters (handleFilterChange "query" (Str "") (base p)) !! "query"%string
    = Some Undefined /\
  activeFilterCount (filters (base (handleQueryChange "" p)))
  = activeFilterCount
      (filters (handleFilterChange "query" (Str "") (base p))).
Proof.
  unfold handleQueryChange, handleFilterChange. simpl.
  rewrite !lookup_insert_eq, !activeFilterCount_insert. done.
Qed.

(** *** The debounced search *)

Lemma panel_eta (p : Panel) :
  {| base := {| filters := filters (base p);
                searches := searches (base p) |};
     debouncedSearch := debouncedSearch p;
     timers := timers p;
     clock := clock p |} = p.
Proof. by destruct p as [[] ? ? ?]. Qed.

Lemma fired_not_due (t : nat) (tm : Timer) (l : list Timer) :
  (t < due tm)%nat ->
  fired t (tm :: l) = fired t l /\ waiting t (tm :: l) = tm :: waiting t l.
Proof.
  intros Hlt. unfold fired, waiting.
  rewrite filter_cons_False by lia. by rewrite filter_cons_True by lia.
Qed.

Lemma fired_last_due (t : nat) (tm : Timer) :
  (due tm <= t)%nat -> fired t [tm] = [tm] /\ waiting t [tm] = [].
Proof.
  intros Hle. unfold fired, waiting.
  rewrite filter_cons_True by lia. by rewrite filter_cons_False by lia.
Qed.

Lemma fired_nil (t : nat) : fired t [] = [] /\ waiting t [] = [].
Proof. done. Qed.

Lemma search_advance_idle (t : nat) (p : Panel) :
  timers p = [] ->
  advance t p
  = {| base := base p; debouncedSearch := debouncedSearch p;
       timers := []; clock := t |}.
Proof.
  unfold advance. intros ->. cbn. rewrite app_nil_r.
  by destruct p as [[] ? ? ?].
Qed.

Lemma search_advance_not_due (t : nat) (tm : Timer) (p : Panel) :
  timers p = [tm] -> (t < due tm)%nat ->
  advance t p
  = {| base := base p; debouncedSearch := debouncedSearch p;
       timers := [tm]; clock := t |}.
Proof.
  unfold advance, fired, waiting. intros -> Hlt.
  rewrite filter_cons_False by lia. rewrite filter_cons_True by lia.
  cbn. rewrite app_nil_r. by destruct p as [[] ? ? ?].
Qed.

Lemma search_advance_due (t : nat) (tm : Timer) (p : Panel) :
  timers p = [tm] -> (due tm <= t)%nat ->
  advance t p
  = {| base := {| filters := filters (base p);
                  searches := searches (base p) ++ [arg tm] |};
       debouncedSearch := debouncedSearch p;
       timers := []; clock := t |}.
Proof.
  unfold advance, fired, waiting. intros -> Hle.
  rewrite filter_cons_True by lia. rewrite filter_cons_False by lia.
  reflexivity.
Qed.

(** A keystroke re-arms the one pending call of the current wrapper. *)
Lemma call_debouncedSearch_rearm (fs : gmap string Value) (p : Panel)
    (tm : Timer) :
  timers p = [tm] -> wrapper tm = debouncedSearch p ->
  call_debouncedSearch fs p
  = [ {| wrapper := debouncedSearch p;
         due := (clock p + DEBOUNCE_MS)%nat; arg := fs |} ].
Proof.
  unfold call_debouncedSearch. intros -> Hw.
  rewrite filter_cons_False by (intros Hne; by apply Hne). reflexivity.
Qed.

(** The state of the panel during a burst of keystrokes that started
    with filters [F0], search log [S0] and debounce wrapper [w], while
    [onSearch] keeps its identity. *)
Lemma typing_burst (F0 : gmap string Value)
    (S0 : list (gmap string Value)) (w : nat) (tr : list (nat * Event)) :
  forall (ks : list (nat * string)) (prev : option (nat * string))
         (p p' : Panel),
  typed tr = Some ks ->
  withinQuietPeriod (fst <$> prev) ks = true ->
  run p tr = Some p' ->
  debouncedSearch p = w /\
  match prev with
  | None =>
      timers p = [] /\ searches (base p) = S0 /\
      filters (base p) = F0
  | Some (t, text) =>
      filters (base p) = <[ "query"%string := Str text ]> F0 /\
      timers p = [ {| wrapper := w; due := (t + DEBOUNCE_MS)%nat;
                      arg := filters (base p) |} ] /\
      searches (base p) = S0 /\ (clock p < t + DEBOUNCE_MS)%nat
  end ->
  debouncedSearch p' = w /\
  match match last ks with Some k => Some k | None => prev end with
  | None =>
      timers p' = [] /\ searches (base p') = S0 /\
      filters (base p') = F0
  | Some (t, text) =>
      filters (base p') = <[ "query"%string := Str text ]> F0 /\
      timers p' = [ {| wrapper := w; due := (t + DEBOUNCE_MS)%nat;
                       arg := filters (base p') |} ] /\
      searches (base p') = S0 /\ (clock p' < t + DEBOUNCE_MS)%nat
  end.
Proof.
  induction tr as [| [t ev] tr IH]; intros ks prev p p' Hty Hq Hrun Hph.
  - simpl in Hty, Hrun. injection Hty as <-. injection Hrun as <-.
    simpl. exact Hph.
  - simpl in Hty. destruct ev as [text | | |]; try discriminate.
    destruct (typed tr) as [ks' |] eqn:Eks; [| discriminate].
    injection Hty as <-. simpl in Hq.
    apply andb_true_iff in Hq as [Hgap Hq].
    simpl in Hrun.
    destruct (step p (t, QueryChange text)) as [p1 |] eqn:E; [| done].
    rewrite last_cons.
    specialize (IH ks' (Some (t, text)) p1 p' eq_refl Hq Hrun).
    assert (Hp1 : debouncedSearch p1 = w /\
                  filters (base p1) = <[ "query"%string := Str text ]> F0 /\
                  timers p1 = [ {| wrapper := w;
                                   due := (t + DEBOUNCE_MS)%nat;
                                   arg := filters (base p1) |} ] /\
                  searches (base p1) = S0 /\
                  (clock p1 < t + DEBOUNCE_MS)%nat).
    { unfold step in E.
      destruct (Nat.ltb_spec t (clock p)) as [| Hle]; [done |].
      injection E as <-. destruct Hph as [Hw Hph].
      destruct prev as [[t0 text0] |]; simpl in Hgap.
      - destruct Hph as (HF & Hp & HS & Hk).
        apply Nat.ltb_lt in Hgap.
        rewrite (search_advance_not_due t _ p Hp) by exact Hgap.
        unfold handleQueryChange.
        erewrite call_debouncedSearch_rearm
          by (cbn; rewrite ?Hw; reflexivity).
        cbn. rewrite Hw, HF, insert_insert_eq.
        repeat split; try done. unfold DEBOUNCE_MS. lia.
      - destruct Hph as (Hp & HS & HF).
        rewrite (search_advance_idle t p Hp).
        unfold handleQueryChange, call_debouncedSearch. cbn.
        rewrite Hw, HF. repeat split; try done. unfold DEBOUNCE_MS. lia. }
    destruct Hp1 as (Hw1 & HF1 & Hp1 & HS1 & Hk1).
    destruct (last ks') as [k |]; apply IH; done.
Qed.

(** While [onSearch] keeps its identity (the trace holds keystrokes
    only), keystrokes that each come less than 300ms after the one
    before produce exactly one search, 300ms after the last keystroke,
    with the filters that hold the last text; the filters shown are
    those same filters. *)
Theorem debounced_search_once
    (p0 p1 : Panel) (tr : list (nat * Event))
    (ks : list (nat * string)) (tn : nat) (text : string) (T : nat) :
  timers p0 = [] ->
  typed tr = Some (ks ++ [(tn, text)]) ->
  withinQuietPeriod None (ks ++ [(tn, text)]) = true ->
  run p0 tr = Some p1 ->
  (tn + 300 <= T)%nat -> (clock p1 <= T)%nat ->
  (forall t, (t < tn + 300)%nat ->
     searches (base (advance t p1)) = searches (base p0)) /\
  let p2 := advance T p1 in
  filters (base p2) = <[ "query"%string := Str text ]> (filters (base p0)) /\
  searches (base p2)
  = searches (base p0)
    ++ [ <[ "query"%string := Str text ]> (filters (base p0)) ] /\
  timers p2 = [].
Proof.
  intros Hidle Hty Hq Hrun HT Hclock.
  pose proof (typing_burst (filters (base p0)) (searches (base p0))
                (debouncedSearch p0) tr
                (ks ++ [(tn, text)]) None p0 p1 Hty Hq Hrun
                (conj eq_refl (conj Hidle (conj eq_refl eq_refl))))
    as [Hw Hph].
  rewrite last_snoc in Hph.
  destruct Hph as (HF & Hp & HS & Hk).
  split.
  - intros t Ht.
    rewrite (search_advance_not_due t _ p1 Hp)
      by (cbn; unfold DEBOUNCE_MS; lia).
    exact HS.
  - rewrite (search_advance_due T _ p1 Hp)
      by (cbn; unfold DEBOUNCE_MS; lia).
    cbn. by rewrite HS, HF.
Qed.

Lemma debounced_search_once_witness :
  exists p1,
    timers (open ∅) = [] /\
    run (open ∅) [(0%nat, QueryChange "o"); (120%nat, QueryChange "oa");
                  (250%nat, QueryChange "oak")] = Some p1 /\
    searches (base (advance 549 p1)) = [] /\
    searches (base (advance 550 p1))
    = [ {[ "query"%string := Str "oak" ]} ].
Proof.
  eexists. split; [reflexivity |].
  split; [vm_compute; reflexivity |].
  refine (let H := debounced_search_once (open ∅) _
                     [(0%nat, QueryChange "o"); (120%nat, QueryChange "oa");
                      (250%nat, QueryChange "oak")]
                     [(0%nat, "o"%string); (120%nat, "oa"%string)]
                     250 "oak" 550 eq_refl eq_refl eq_refl _ _ _ in _).
  - destruct H as (Hquiet & _ & HS & _).
    split; [exact (Hquiet 549%nat ltac:(lia)) | exact HS].
  Unshelve.
  + vm_compute. reflexivity.
  + lia.
  + vm_compute. lia.
Defined.

(** A pending debounced search is neither cancelled nor updated by the
    other handlers.  After a keystroke, a filter change or a click on
    "Clear" within the next 300ms dispatches its own search at once, and
    the debounced search still follows with the filters of the
    keystroke.  So the last search the caller receives is not the one
    the panel shows: after "Clear" it still holds the typed text, and
    after a filter change that alters the field it still holds the
    field's old value. *)
Theorem pending_search_goes_out_stale
    (p0 : Panel) (t1 t2 T : nat) (text key : string) (value : Value) :
  timers p0 = [] ->
  (clock p0 <= t1)%nat -> (t1 <= t2)%nat -> (t2 < t1 + 300)%nat ->
  (t1 + 300 <= T)%nat ->
  key <> "query"%string ->
  let typedFilters := <[ "query"%string := Str text ]> (filters (base p0)) in
  (exists p2,
     run p0 [(t1, QueryChange text); (t2, FilterChange key value)] = Some p2 /\
     let p3 := advance T p2 in
     filters (base p3) = <[ key := or_else value Undefined ]> typedFilters /\
     searches (base p3)
     = searches (base p0)
       ++ [ <[ key := or_else value Undefined ]> typedFilters;
            typedFilters ] /\
     (get (filters (base p0)) key <> or_else value Undefined ->
      forall latest, last (searches (base p3)) = Some latest ->
        get latest key <> get (filters (base p3)) key)) /\
  (exists p2,
     run p0 [(t1, QueryChange text); (t2, ClearFilters)] = Some p2 /\
     let p3 := advance T p2 in
     filters (base p3) = ∅ /\
     searches (base p3) = searches (base p0) ++ [∅; typedFilters] /\
     (forall latest, last (searches (base p3)) = Some latest ->
        get latest "query" = Str text /\
        get (filters (base p3)) "query" = Undefined)).
Proof.
  intros Hidle H1 H2 H3 HT Hkey typedFilters. subst typedFilters.
  assert (Hs1 : step p0 (t1, QueryChange text)
                = Some (handleQueryChange text
                          {| base := base p0;
                             debouncedSearch := debouncedSearch p0;
                             timers := []; clock := t1 |})).
  { unfold step. destruct (Nat.ltb_spec t1 (clock p0)); [lia |].
    by rewrite (search_advance_idle t1 p0 Hidle). }
  split.
  - eexists. split.
    + simpl. rewrite Hs1.
      unfold step, handleQueryChange, call_debouncedSearch. simpl.
      destruct (Nat.ltb_spec t2 t1); [lia |].
      destruct (fired_not_due t2
                  {| wrapper := debouncedSearch p0;
                     due := (t1 + DEBOUNCE_MS)%nat;
                     arg := <[ "query"%string := Str text ]>
                              (filters (base p0)) |} [])
        as [-> ->]; [simpl; unfold DEBOUNCE_MS; lia |].
      reflexivity.
    + destruct (fired_nil t2) as [-> ->].
      unfold advance. simpl.
      destruct (fired_last_due T
                  {| wrapper := debouncedSearch p0;
                     due := (t1 + DEBOUNCE_MS)%nat;
                     arg := <[ "query"%string := Str text ]>
                              (filters (base p0)) |})
        as [-> _]; [simpl; unfold DEBOUNCE_MS; lia |].
      simpl. rewrite app_nil_r.
      split; [reflexivity |].
      split; [by rewrite <- app_assoc |].
      intros Hchg latest. rewrite last_snoc. intros [= <-].
      unfold get. rewrite lookup_insert_eq.
      rewrite lookup_insert_ne by (intros Heq; by apply Hkey).
      exact Hchg.
  - eexists. split.
    + simpl. rewrite Hs1.
      unfold step, handleQueryChange, call_debouncedSearch. simpl.
      destruct (Nat.ltb_spec t2 t1); [lia |].
      destruct (fired_not_due t2
                  {| wrapper := debouncedSearch p0;
                     due := (t1 + DEBOUNCE_MS)%nat;
                     arg := <[ "query"%string := Str text ]>
                              (filters (base p0)) |} [])
        as [-> ->]; [simpl; unfold DEBOUNCE_MS; lia |].
      reflexivity.
    + destruct (fired_nil t2) as [-> ->].
      unfold advance. simpl.
      destruct (fired_last_due T
                  {| wrapper := debouncedSearch p0;
                     due := (t1 + DEBOUNCE_MS)%nat;
                     arg := <[ "query"%string := Str text ]>
                              (filters (base p0)) |})
        as [-> _]; [simpl; unfold DEBOUNCE_MS; lia |].
      simpl. rewrite app_nil_r.
      split; [reflexivity |].
      split; [by rewrite <- app_assoc |].
      intros latest. rewrite last_snoc. intros [= <-].
      unfold get. by rewrite lookup_insert_eq, lookup_empty.
Qed.

Lemma pending_search_goes_out_stale_witness :
  exists p2,
    run (open ∅) [(0%nat, QueryChange "oak");
                  (100%nat, FilterChange "category" (Str "flooring"))]
    = Some p2 /\
    filters (base (advance 300 p2))
    = <[ "category"%string := Str "flooring" ]>
        ({[ "query"%string := Str "oak" ]}) /\
    last (searches (base (advance 300 p2)))
    = Some ({[ "query"%string := Str "oak" ]}) /\
    get ({[ "query"%string := Str "oak" ]}) "category"
    <> get (filters (base (advance 300 p2))) "category".
Proof.
  destruct (pending_search_goes_out_stale (open ∅) 0 100 300 "oak"
              "category" (Str "flooring"))
    as [(p2 & Hrun & HF & HS & Hne) _];
    [reflexivity | simpl; lia | lia | lia | lia | discriminate |].
  exists p2. split; [exact Hrun |]. split; [exact HF |].
  assert (Hlast : last (searches (base (advance 300 p2)))
                  = Some ({[ "query"%string := Str "oak" ]})).
  { rewrite HS. reflexivity. }
  split; [exact Hlast |].
  apply Hne; [discriminate | exact Hlast].
Defined.

(** A change of identity of [onSearch] between two keystrokes defeats the
    debounce.  The second keystroke goes to the new wrapper and the call
    pending in the old one is not cancelled: both keystrokes dispatch a
    search although they are less than 300ms apart, each 300ms after
    its own keystroke. *)
Theorem onSearch_change_defeats_debounce
    (p0 : Panel) (t1 t2 t3 T : nat) (text1 text2 : string) :
  timers p0 = [] ->
  (clock p0 <= t1)%nat -> (t1 <= t2)%nat -> (t2 <= t3)%nat ->
  (t3 < t1 + 300)%nat -> (t3 + 300 <= T)%nat ->
  let first := <[ "query"%string := Str text1 ]> (filters (base p0)) in
  let second := <[ "query"%string := Str text2 ]> first in
  exists p3,
    run p0 [(t1, QueryChange text1); (t2, OnSearchChange);
            (t3, QueryChange text2)] = Some p3 /\
    (forall t, (t1 + 300 <= t)%nat -> (t < t3 + 300)%nat ->
       searches (base (advance t p3)) = searches (base p0) ++ [first]) /\
    searches (base (advance T p3)) = searches (base p0) ++ [first; second] /\
    filters (base (advance T p3)) = second /\
    timers (advance T p3) = [].
Proof.
  intros Hidle H1 H2 H3 H4 HT first second. subst first second.
  assert (Hs1 : step p0 (t1, QueryChange text1)
                = Some (handleQueryChange text1
                          {| base := base p0;
                             debouncedSearch := debouncedSearch p0;
                             timers := []; clock := t1 |})).
  { unfold step. destruct (Nat.ltb_spec t1 (clock p0)); [lia |].
    by rewrite (search_advance_idle t1 p0 Hidle). }
  set (tm1 := {| wrapper := debouncedSearch p0;
                 due := (t1 + DEBOUNCE_MS)%nat;
                 arg := <[ "query"%string := Str text1 ]>
                          (filters (base p0)) |}).
  set (tm2 := {| wrapper := S (debouncedSearch p0);
                 due := (t3 + DEBOUNCE_MS)%nat;
                 arg := <[ "query"%string := Str text2 ]>
                          (<[ "query"%string := Str text1 ]>
                             (filters (base p0))) |}).
  exists {| base := {| filters := arg tm2; searches := searches (base p0) |};
            debouncedSearch := S (debouncedSearch p0);
            timers := [tm1; tm2];
            clock := t3 |}.
  assert (Hd1 : due tm1 = (t1 + 300)%nat) by reflexivity.
  assert (Hd2 : due tm2 = (t3 + 300)%nat) by reflexivity.
  split; [| split; [| split; [| split]]].
  - simpl. rewrite Hs1.
    unfold step, handleQueryChange, call_debouncedSearch, onSearchChanged.
    simpl. fold tm1.
    destruct (Nat.ltb_spec t2 t1); [lia |].
    destruct (fired_not_due t2 tm1 []) as [-> ->]; [rewrite Hd1; lia |].
    destruct (fired_nil t2) as [-> ->]. simpl.
    destruct (Nat.ltb_spec t3 t2); [lia |].
    destruct (fired_not_due t3 tm1 []) as [-> ->]; [rewrite Hd1; lia |].
    destruct (fired_nil t3) as [-> ->]. simpl.
    rewrite filter_cons_True by (simpl; lia).
    rewrite !app_nil_r. reflexivity.
  - intros t Hlo Hhi. unfold advance, fired. simpl.
    rewrite filter_cons_True by (rewrite Hd1; lia).
    rewrite filter_cons_False by (rewrite Hd2; lia).
    reflexivity.
  - unfold advance, fired. simpl.
    rewrite !filter_cons_True by (rewrite ?Hd1, ?Hd2; lia).
    unfold merge_sort. simpl.
    rewrite decide_True by (unfold dueOrder; rewrite Hd1, Hd2; lia).
    reflexivity.
  - reflexivity.
  - unfold advance, waiting. simpl.
    rewrite !filter_cons_False by (rewrite ?Hd1, ?Hd2; lia). reflexivity.
Qed.

Lemma onSearch_change_defeats_debounce_witness :
  exists p3,
    run (open ∅) [(0%nat, QueryChange "oa"); (50%nat, OnSearchChange);
                  (100%nat, QueryChange "oak")] = Some p3 /\
    searches (base (advance 300 p3)) = [ {[ "query"%string := Str "oa" ]} ] /\
    searches (base (advance 400 p3))
    = [ {[ "query"%string := Str "oa" ]};
        {[ "query"%string := Str "oak" ]} ].
Proof.
  destruct (onSearch_change_defeats_debounce (open ∅) 0 50 100 400
              "oa" "oak")
    as (p3 & Hrun & Hmid & HS & _);
    [reflexivity | simpl; lia | lia | lia | lia | lia |].
  exists p3. split; [exact Hrun |].
  split; [exact (Hmid 300%nat ltac:(lia) ltac:(lia)) |].
  rewrite HS. cbn. by rewrite insert_insert_eq.
Defined.

End SKUSearchPanelSpec.

(** ** PromoCalibrationSlider: cancellation, as the rendered input drives it *)
Module PromoCalibrationSliderUISpec.
Import PromoCalibrationSlider PromoCalibrationSliderSpec
       PromoCalibrationSliderView PromoCalibrationSliderViewSpec
       PromoCalibrationSliderUI.

#[local] Arguments step : simpl never.
#[local] Arguments advance : simpl never.
#[local] Arguments callInferenceAPI : simpl never.
#[local] Arguments callInferenceAPI_resume : simpl never.
#[local] Arguments stepUI : simpl never.

Section Component.
Variable props : Props.

Lemma stepUI_step (st st' : State) (b : bool) (e : nat * Event) :
  stepUI props st (b, e) = Some st' -> step props st e = Some st'.
Proof.
  destruct e as [t [v | c o]]; unfold stepUI; [| done].
  by destruct (loading b (view (advance props t st))).
Qed.

Lemma singleFlight_mount : singleFlight (mount props).
Proof. intros c Hin. by apply elem_of_empty in Hin. Qed.

Lemma singleFlight_idle (st : State) :
  (forall c, c ∉ inFlight st) -> singleFlight st.
Proof. intros Hnone c Hin. by destruct (Hnone c). Qed.

Lemma singleFlight_ext (st st' : State) :
  inFlight st' = inFlight st ->
  abortControllerRef st' = abortControllerRef st ->
  aborted st' = aborted st ->
  isLoading (view st') = isLoading (view st) ->
  pendingCall st' = pendingCall st ->
  singleFlight st -> singleFlight st'.
Proof.
  intros Hf Hr Ha Hl Hp Hsf c. rewrite Hf, Hr, Ha, Hl, Hp. apply Hsf.
Qed.

(** A request goes out only when none is in flight, and then it is the
    only one. *)
Lemma singleFlight_callInferenceAPI (value : Q) (st : State) :
  oneLive st -> (forall c, c ∉ inFlight st) -> pendingCall st = None ->
  singleFlight (callInferenceAPI props value st).
Proof.
  intros (_ & Hab & _ & Href) Hnone Hpend c.
  destruct (callInferenceAPI_platform props value st)
    as (Hf & Ha & Hv & _).
  destruct (callInferenceAPI_fields props value st)
    as (_ & _ & Hp & _ & _ & Hr & _).
  rewrite Hf, elem_of_union, elem_of_singleton.
  intros [-> | Hin]; [| by destruct (Hnone c)].
  split; [exact Hr |]. split; [| split].
  - rewrite Ha. destruct (abortControllerRef st) as [p |] eqn:Ep.
    + rewrite not_elem_of_union, not_elem_of_singleton.
      specialize (Href p eq_refl).
      split; [lia |]. intros Hin. specialize (Hab _ Hin). lia.
    + intros Hin. specialize (Hab _ Hin). lia.
  - by rewrite Hv.
  - by rewrite Hp.
Qed.

Lemma singleFlight_advance (t : nat) (st : State) :
  oneLive st -> singleFlight st -> singleFlight (advance props t st).
Proof.
  intros Hone Hsf. unfold advance.
  destruct (pendingCall st) as [[due v] |] eqn:Ep;
    [destruct (due <=? t)%nat |].
  - eapply singleFlight_ext;
      [| | | | | apply (singleFlight_callInferenceAPI v)];
      try reflexivity.
    + by apply (oneLive_ext st).
    + intros c Hin. cbn in Hin.
      destruct (Hsf c Hin) as (_ & _ & _ & Hp). congruence.
  - by apply (singleFlight_ext st).
  - by apply (singleFlight_ext st).
Qed.

Lemma singleFlight_stepUI (st st' : State) (e : bool * (nat * Event)) :
  oneLive st -> singleFlight st ->
  stepUI props st e = Some st' -> singleFlight st'.
Proof.
  intros Hone Hsf. destruct e as [b [t ev]].
  pose proof (singleFlight_advance t st Hone Hsf) as Hadv.
  destruct ev as [v | c o]; unfold stepUI.
  - destruct (loading b (view (advance props t st))) eqn:El; [done |].
    unfold step. destruct (t <? clock st)%nat; [done |].
    intros [= <-]. apply singleFlight_idle. intros c Hin. cbn in Hin.
    destruct (Hadv c Hin) as (_ & _ & Hl & _).
    unfold loading in El. rewrite Hl in El. done.
  - unfold step. destruct (t <? clock st)%nat; [done |].
    destruct (canSettle c o (advance props t st)) eqn:Hcan; [| done].
    intros [= <-]. apply singleFlight_idle. intros x.
    destruct (callInferenceAPI_resume_fields o
                (settled c (advance props t st)))
      as (_ & _ & _ & _ & _ & _ & _ & _ & Hf & _).
    rewrite Hf. cbn. rewrite elem_of_difference, elem_of_singleton.
    intros [Hx Hne]. apply Hne.
    unfold canSettle in Hcan. apply andb_true_iff in Hcan as [Hc _].
    apply bool_decide_eq_true in Hc.
    destruct (Hadv x Hx) as (Hrx & _). destruct (Hadv c Hc) as (Hrc & _).
    congruence.
Qed.

Lemma reachableUI_reachable (st : State) :
  reachableUI props st -> reachable props st.
Proof.
  intros [tr Hrun]. exists (tr.*2). revert Hrun. generalize (mount props).
  induction tr as [| [b e] tr IH]; intros s; simpl; [done |].
  destruct (stepUI props s (b, e)) as [s1 |] eqn:E; [| done].
  rewrite (stepUI_step _ _ _ _ E). apply IH.
Qed.

Lemma reachableUI_singleFlight (st : State) :
  reachableUI props st -> oneLive st /\ singleFlight st.
Proof.
  intros Hreach.
  split; [by apply (oneLive_reachable props), reachableUI_reachable |].
  destruct Hreach as [tr Hrun]. revert Hrun.
  generalize (oneLive_mount props) singleFlight_mount.
  generalize (mount props).
  induction tr as [| e tr IH]; intros s Hone Hsf; simpl.
  - by intros [= <-].
  - destruct (stepUI props s e) as [s1 |] eqn:E; [| done].
    apply IH; [| by apply (singleFlight_stepUI s s1 e)].
    destruct e as [b e].
    by apply (oneLive_step props s s1 e), stepUI_step with b.
Qed.


End Component.

Lemma after_one_drag_reachableUI : reachableUI sample_props after_one_drag.
Proof. exists one_drag. reflexivity. Qed.


End PromoCalibrationSliderUISpec.

(** ** getColorFromScale in double precision *)
Module PricingHeatmapDoubleSpec.
Import PricingHeatmap PricingHeatmapDouble.
Import PrimFloat.

(** C7 (what the code does).  In double precision the index is not
    monotone for all finite inputs.  With [min = -Number.MAX_VALUE] and
    [max = Number.MAX_VALUE], both finite and [min < max], the difference
    [max - min] overflows to [Infinity].  For [v1 = min] the quotient is
    [0 / Infinity = 0] and the index is 0; for [v2 = max >= v1] the
    quotient is [Infinity / Infinity = NaN], the index is [NaN], which is
    not at or above 0, and the colour read from the default palette is
    [undefined]. *)
Theorem scaleIndex_not_monotone_at_overflow :
  let min := (- MAX_VALUE)%float in
  let max := MAX_VALUE in
  let v1 := min in
  let v2 := max in
  PrimFloat.is_finite min = true /\ PrimFloat.is_finite max = true /\
  PrimFloat.ltb min max = true /\ PrimFloat.leb v1 v2 = true /\
  PrimFloat.is_infinity (max - min)%float = true /\
  scaleIndex v1 min max 5 = Integer 0 /\
  scaleIndex v2 min max 5 = NotANumber /\
  index_le (scaleIndex v1 min max 5) (scaleIndex v2 min max 5) = false /\
  getColorFromScale v1 min max DEFAULT_COLOR_SCALE
  = Some "#22c55e"%string /\
  getColorFromScale v2 min max DEFAULT_COLOR_SCALE = None.
Proof. vm_compute. repeat split. Qed.

(** At ordinary prices the double-precision index can also differ from
    the exact one: for value 0.48 in the domain [0.03, 2.28] (the doubles
    nearest to these decimals are written out below) the exact quotient
    is 1/5 and the exact index 1, but the rounded quotient is just below
    1/5 and the code picks index 0. *)
Lemma scaleIndex_rounds_below_exact :
  scaleIndex 0x1.eb851eb851eb8p-2%float 0x1.eb851eb851eb8p-6%float
             0x1.23d70a3d70a3dp+1%float 5 = Integer 0 /\
  PricingHeatmap.scaleIndex 0.48 0.03 2.28 5 = 1.
Proof. vm_compute. split; reflexivity. Qed.

End PricingHeatmapDoubleSpec.
